(** * Simple To-Do List API: the in-memory task store and its handlers

    A shallow embedding of [backend_api/src/api/main.py]: the pydantic
    models, the process-wide store ([_TASKS], [_NEXT_ID]), the six route
    handlers, and the request layer that FastAPI puts in front of them
    (body and path validation, exception to status-code mapping). *)

From Stdlib Require Import ZArith NArith String Ascii Lia Sorting.Sorted.
From stdpp Require Import base option list sorting gmap.

Local Open Scope Z_scope.
#[local] Set Warnings "-register-all".

(** ** Python strings

    A Python [str] is a sequence of Unicode code points. *)

Definition str := list N.

Definition lit (s : string) : str :=
  map N_of_ascii (list_ascii_of_string s).

(** [str.isspace] on one code point (CPython's [_PyUnicode_IsWhitespace]). *)
Definition is_space (c : N) : bool :=
  (((9 <=? c) && (c <=? 13)) || ((28 <=? c) && (c <=? 32))
   || (c =? 133) || (c =? 160) || (c =? 5760)
   || ((8192 <=? c) && (c <=? 8202))
   || (c =? 8232) || (c =? 8233) || (c =? 8239) || (c =? 8287)
   || (c =? 12288))%N.

Fixpoint lstrip (s : str) : str :=
  match s with
  | [] => []
  | c :: s' => if is_space c then lstrip s' else s
  end.

Definition rstrip (s : str) : str := rev (lstrip (rev s)).

(** [s.strip()] *)
Definition strip (s : str) : str := rstrip (lstrip s).

(** [s == ""] *)
Definition is_empty (s : str) : bool :=
  match s with [] => true | _ => false end.

(** [len(s)] *)
Definition len (s : str) : Z := Z.of_nat (length s).

(** A surrogate code point (U+D800 to U+DFFF). [json.loads] leaves an
    unpaired surrogate escape in the string as it is. *)
Definition is_surrogate (c : N) : bool := ((55296 <=? c) && (c <=? 57343))%N.

(** [s.encode("utf-8")] does not raise: no code point is a surrogate. *)
Definition utf8_encodable (s : str) : bool :=
  forallb (λ c, negb (is_surrogate c)) s.

(** ** JSON request bodies, as [json.loads] hands them to pydantic *)

Inductive json :=
| JNull
| JBool (b : bool)
| JNumber (n : Z)
| JFloat (finite : bool)
| JString (s : str)
| JArray (items : list json)
| JObject (members : list (str * json)).

(** Key lookup in a parsed object: on a repeated key the last member wins. *)
Fixpoint member (k : str) (ms : list (str * json)) : option json :=
  match ms with
  | [] => None
  | (k', v) :: ms' =>
      match member k ms' with
      | Some v' => Some v'
      | None => if decide (k' = k) then Some v else None
      end
  end.

(** The value can be rendered as a JSON response body: every string and
    every key of the parsed value encodes as UTF-8 and every float is
    finite (the renderer refuses NaN and the infinities). Of a repeated key
    only the last member is part of the parsed object. *)
Fixpoint json_encodable (j : json) : bool :=
  match j with
  | JNull => true
  | JBool _ => true
  | JNumber _ => true
  | JFloat finite => finite
  | JString s => utf8_encodable s
  | JArray items => forallb json_encodable items
  | JObject ms =>
      (fix members (ms : list (str * json)) : bool :=
         match ms with
         | [] => true
         | (k, v) :: ms' =>
             match member k ms' with
             | Some _ => true
             | None => utf8_encodable k && json_encodable v
             end && members ms'
         end) ms
  end.

(** The result of validating one field: the value, or the input the
    validation error quotes. *)
Inductive validation (A : Type) :=
| Valid (a : A)
| Invalid (input : json).
Arguments Valid {A} a.
Arguments Invalid {A} input.

Definition inputs {A} (v : validation A) : list json :=
  match v with
  | Valid _ => []
  | Invalid j => [j]
  end.

(** ** Models *)

(** [class TaskStatus(str, Enum)] *)
Inductive TaskStatus := pending | completed.

#[global] Instance TaskStatus_eq_dec : EqDecision TaskStatus.
Proof. solve_decision. Defined.

Definition TaskStatus_value (st : TaskStatus) : str :=
  match st with
  | pending => lit "pending"
  | completed => lit "completed"
  end.

(** Validation of a [str] field: only a JSON string is accepted, numbers
    and booleans are not coerced. A field that declares [min_length] is
    checked as a Unicode string, so a string holding a surrogate is refused
    as well as one that is too short; a field without constraint takes the
    string as it is. *)
Definition validate_str (min_length : option Z) (j : json) : validation str :=
  match j with
  | JString s =>
      match min_length with
      | None => Valid s
      | Some n =>
          if utf8_encodable s && (n <=? len s) then Valid s else Invalid j
      end
  | _ => Invalid j
  end.

(** Validation of a [TaskStatus] field: the string must be a member value. *)
Definition validate_status (j : json) : validation TaskStatus :=
  match j with
  | JString s =>
      if decide (s = TaskStatus_value pending) then Valid pending
      else if decide (s = TaskStatus_value completed) then Valid completed
      else Invalid j
  | _ => Invalid j
  end.

(** A required field ([Field(...)]): a missing field is an error that
    quotes the whole body. *)
Definition required {A} (body : json) (v : json -> validation A)
           (o : option json) : validation A :=
  match o with
  | Some j => v j
  | None => Invalid body
  end.

(** An [Optional[...] = Field(None, ...)] field: the result pairs the value
    with whether the field was set ([model_fields_set]); an explicit [null]
    is a set field holding [None]. *)
Definition optional {A} (v : json -> validation A) (o : option json)
  : validation (option A * bool) :=
  match o with
  | None => Valid (None, false)
  | Some JNull => Valid (None, true)
  | Some j => match v j with
              | Valid a => Valid (Some a, true)
              | Invalid i => Invalid i
              end
  end.

(** [class TaskBase(BaseModel)]; [TaskCreate] and [TaskUpdate] add nothing. *)
Module TaskBase.
Record t := mk { title : str; description : str; status : TaskStatus }.

(** Request-body validation: the payload, or the inputs quoted by the
    errors of the [RequestValidationError] (every failing field is
    reported). *)
Definition check (body : json) : t + list json :=
  match body with
  | JObject ms =>
      let vt := required body (validate_str (Some 1))
                         (member (lit "title") ms) in
      let vd := required body (validate_str None)
                         (member (lit "description") ms) in
      let vs := required body validate_status (member (lit "status") ms) in
      match vt, vd, vs with
      | Valid ti, Valid de, Valid st => inl (mk ti de st)
      | _, _, _ => inr (inputs vt ++ inputs vd ++ inputs vs)
      end
  | _ => inr [body]
  end.

Definition validate (body : json) : option t :=
  match check body with
  | inl p => Some p
  | inr _ => None
  end.

Definition errors (body : json) : list json :=
  match check body with
  | inl _ => []
  | inr e => e
  end.
End TaskBase.

Abbreviation TaskCreate := TaskBase.t (only parsing).
Abbreviation TaskUpdate := TaskBase.t (only parsing).

(** [class TaskPatch(BaseModel)] *)
Module TaskPatch.
Record t := mk {
  title : option str;
  description : option str;
  status : option TaskStatus;
  title_set : bool;
  description_set : bool;
  status_set : bool
}.

Definition check (body : json) : t + list json :=
  match body with
  | JObject ms =>
      let vt := optional (validate_str (Some 1)) (member (lit "title") ms) in
      let vd := optional (validate_str None)
                         (member (lit "description") ms) in
      let vs := optional validate_status (member (lit "status") ms) in
      match vt, vd, vs with
      | Valid (ti, bt), Valid (de, bd), Valid (st, bs) =>
          inl (mk ti de st bt bd bs)
      | _, _, _ => inr (inputs vt ++ inputs vd ++ inputs vs)
      end
  | _ => inr [body]
  end.

Definition validate (body : json) : option t :=
  match check body with
  | inl p => Some p
  | inr _ => None
  end.

Definition errors (body : json) : list json :=
  match check body with
  | inl _ => []
  | inr e => e
  end.
End TaskPatch.

(** A [Dict[str, Any]] over the keys of a task, as the handlers build it:
    a key is absent ([None]), or present with a value that may be Python's
    [None] ([Some None]). *)
Module Data.
Record t := mk {
  id : option (option Z);
  title : option (option str);
  description : option (option str);
  status : option (option TaskStatus)
}.

Definition upd {A} (old new : option A) : option A :=
  match new with
  | Some v => Some v
  | None => old
  end.

(** [d.update(e)] *)
Definition update (d e : t) : t :=
  mk (upd (id d) (id e)) (upd (title d) (title e))
     (upd (description d) (description e)) (upd (status d) (status e)).
End Data.

(** [payload.model_dump()] of a [TaskBase] *)
Definition TaskBase_model_dump (p : TaskBase.t) : Data.t :=
  Data.mk None (Some (Some (TaskBase.title p)))
          (Some (Some (TaskBase.description p)))
          (Some (Some (TaskBase.status p))).

(** [payload.model_dump(exclude_unset=True)] of a [TaskPatch] *)
Definition TaskPatch_model_dump_exclude_unset (p : TaskPatch.t) : Data.t :=
  Data.mk None
          (if TaskPatch.title_set p then Some (TaskPatch.title p) else None)
          (if TaskPatch.description_set p
           then Some (TaskPatch.description p) else None)
          (if TaskPatch.status_set p then Some (TaskPatch.status p) else None).

(** [class Task(TaskBase)] *)
Module Task.
Record t := mk {
  id : Z;
  title : str;
  description : str;
  status : TaskStatus
}.

(** The constructor [Task] applied to keyword arguments [d]: every field is
    required and validated ([id >= 1], [len(title) >= 1]); [None] is
    pydantic's [ValidationError]. The titles the handlers hand to it come
    from a payload the request model has validated or from the store, so
    the Unicode check of [validate_str] has been passed before. *)
Definition init (d : Data.t) : option t :=
  match Data.id d, Data.title d, Data.description d, Data.status d with
  | Some (Some i), Some (Some ti), Some (Some de), Some (Some st) =>
      if (1 <=? i) && (1 <=? len ti) then Some (mk i ti de st) else None
  | _, _, _, _ => None
  end.

(** [task.model_dump()] *)
Definition model_dump (x : t) : Data.t :=
  Data.mk (Some (Some (id x))) (Some (Some (title x)))
          (Some (Some (description x))) (Some (Some (status x))).
End Task.

(** The keyword argument [id=i], to which a handler adds the payload's dump. *)
Definition kw_id (i : Z) : Data.t := Data.mk (Some (Some i)) None None None.

(** ** The store: module-level globals *)

Record state := mkState {
  _TASKS : gmap Z Task.t;
  _NEXT_ID : Z
}.

(** [_TASKS = {}], [_NEXT_ID = 1] *)
Definition initial : state := mkState ∅ 1.

(** ** Handlers run in a state-and-exception monad

    A raised exception keeps whatever the handler wrote before raising. *)

Inductive exn :=
| HTTPException (status_code : Z) (detail : string)
| ValidationError
| KeyError.

Inductive outcome (A : Type) :=
| Return (a : A)
| Raise (e : exn).
Arguments Return {A} a.
Arguments Raise {A} e.

Definition M (A : Type) : Type := state -> outcome A * state.

#[global] Instance M_ret : MRet M := λ A a s, (Return a, s).

#[global] Instance M_bind : MBind M := λ A B k m s,
  match m s with
  | (Return a, s') => k a s'
  | (Raise e, s') => (Raise e, s')
  end.

Definition raise {A} (e : exn) : M A := λ s, (Raise e, s).

Definition read_TASKS : M (gmap Z Task.t) := λ s, (Return (_TASKS s), s).
Definition read_NEXT_ID : M Z := λ s, (Return (_NEXT_ID s), s).
Definition write_NEXT_ID (n : Z) : M unit :=
  λ s, (Return tt, mkState (_TASKS s) n).

(** [_TASKS[k] = v] *)
Definition setitem (k : Z) (v : Task.t) : M unit :=
  λ s, (Return tt, mkState (<[k := v]> (_TASKS s)) (_NEXT_ID s)).

(** [del _TASKS[k]] *)
Definition delitem (k : Z) : M unit :=
  λ s, match _TASKS s !! k with
       | Some _ => (Return tt, mkState (delete k (_TASKS s)) (_NEXT_ID s))
       | None => (Raise KeyError, s)
       end.

(** Constructing a [Task] inside a handler. *)
Definition construct (d : Data.t) : M Task.t :=
  match Task.init d with
  | Some t => mret t
  | None => raise ValidationError
  end.

(** ** [sorted(xs, key=...)]: a stable sort by an integer key *)

Fixpoint insert_by {A} (key : A -> Z) (x : A) (l : list A) : list A :=
  match l with
  | [] => [x]
  | y :: l' => if key x <=? key y then x :: l else y :: insert_by key x l'
  end.

Definition sorted {A} (key : A -> Z) (l : list A) : list A :=
  foldr (insert_by key) [] l.

(** [d.values()]. Python yields the values in insertion order, the map in
    its own order; [list_tasks] sorts them by id, and with distinct ids the
    sorted list is the same for every enumeration
    ([list_tasks_any_enumeration] below). *)
Definition values (d : gmap Z Task.t) : list Task.t :=
  (map_to_list d).*2.

(** ** The handlers *)

Definition _get_task_or_404 (task_id : Z) : M Task.t :=
  tasks ← read_TASKS;
  match tasks !! task_id with
  | None => raise (HTTPException 404 "Task not found")
  | Some task => mret task
  end.

Definition health_check : M string := mret "Healthy"%string.

Definition list_tasks : M (list Task.t) :=
  tasks ← read_TASKS;
  mret (sorted Task.id (values tasks)).

Definition create_task (payload : TaskCreate) : M Task.t :=
  if is_empty (strip (TaskBase.title payload))
  then raise (HTTPException 400 "title must not be empty")
  else
    next ← read_NEXT_ID;
    task ← construct (Data.update (kw_id next) (TaskBase_model_dump payload));
    next ← read_NEXT_ID;
    setitem next task;;
    next ← read_NEXT_ID;
    write_NEXT_ID (next + 1);;
    mret task.

Definition get_task (id : Z) : M Task.t := _get_task_or_404 id.

Definition update_task (payload : TaskUpdate) (id : Z) : M Task.t :=
  _get_task_or_404 id;;
  if is_empty (strip (TaskBase.title payload))
  then raise (HTTPException 400 "title must not be empty")
  else
    updated ← construct (Data.update (kw_id id) (TaskBase_model_dump payload));
    setitem id updated;;
    mret updated.

Definition patch_task (payload : TaskPatch.t) (id : Z) : M Task.t :=
  existing ← _get_task_or_404 id;
  let patch_data := TaskPatch_model_dump_exclude_unset payload in
  if match Data.title patch_data with
     | Some (Some ti) => is_empty (strip ti)
     | _ => false
     end
  then raise (HTTPException 400 "title must not be empty")
  else
    let new_data := Data.update (Task.model_dump existing) patch_data in
    updated ← construct new_data;
    setitem id updated;;
    mret updated.

Definition delete_task (id : Z) : M unit :=
  _get_task_or_404 id;;
  delitem id;;
  mret tt.

(** ** The request layer *)

Inductive request :=
| GET_root
| GET_tasks
| POST_tasks (body : json)
| GET_task (id : Z)
| PUT_task (id : Z) (body : json)
| PATCH_task (id : Z) (body : json)
| DELETE_task (id : Z).

Inductive content :=
| Message (m : string)
| TaskList (tasks : list Task.t)
| TaskBody (task : Task.t)
| Detail (d : string)
| ValidationDetail
| InternalServerError
| Empty.

Record response := mkResponse { status_code : Z; body : content }.

(** [Path(..., ge=1)], on a path segment that parsed as an integer. *)
Definition validate_path_id (id : Z) : option Z :=
  if 1 <=? id then Some id else None.

(** The fields of a task that are rendered as JSON strings encode. *)
Definition task_encodable (t : Task.t) : bool :=
  utf8_encodable (Task.title t) && utf8_encodable (Task.description t).

(** The response body can be rendered. *)
Definition content_encodable (c : content) : bool :=
  match c with
  | TaskBody t => task_encodable t
  | TaskList l => forallb task_encodable l
  | Message _ => true
  | Detail _ => true
  | ValidationDetail => true
  | InternalServerError => true
  | Empty => true
  end.

(** A handler's result as a response: [success] is the route's status code;
    an [HTTPException] carries its own; any other exception escapes the
    handler and the server answers 500. What the handler returns is rendered
    after it has run: when that fails the answer is 500 as well, and what
    the handler wrote stays written. *)
Definition respond {A} (success : Z) (render : A -> content) (m : M A)
  : state -> response * state :=
  λ s, match m s with
       | (Return a, s') =>
           (if content_encodable (render a)
            then mkResponse success (render a)
            else mkResponse 500 InternalServerError, s')
       | (Raise (HTTPException sc d), s') => (mkResponse sc (Detail d), s')
       | (Raise _, s') => (mkResponse 500 InternalServerError, s')
       end.

(** Request validation failed: the handler is not called. The 422 body
    quotes the input of every error; when one of them cannot be rendered
    the answer is 500. (The error of a path id quotes the path segment, a
    string of digits.) *)
Definition unprocessable (quoted : list json) : state -> response * state :=
  λ s, (if forallb json_encodable quoted
        then mkResponse 422 ValidationDetail
        else mkResponse 500 InternalServerError, s).

Definition app (r : request) : state -> response * state :=
  match r with
  | GET_root => respond 200 Message health_check
  | GET_tasks => respond 200 TaskList list_tasks
  | POST_tasks b =>
      match TaskBase.validate b with
      | Some payload => respond 201 TaskBody (create_task payload)
      | None => unprocessable (TaskBase.errors b)
      end
  | GET_task id =>
      match validate_path_id id with
      | Some id => respond 200 TaskBody (get_task id)
      | None => unprocessable []
      end
  | PUT_task id b =>
      match validate_path_id id, TaskBase.validate b with
      | Some id, Some payload => respond 200 TaskBody (update_task payload id)
      | _, _ => unprocessable (TaskBase.errors b)
      end
  | PATCH_task id b =>
      match validate_path_id id, TaskPatch.validate b with
      | Some id, Some payload => respond 200 TaskBody (patch_task payload id)
      | _, _ => unprocessable (TaskPatch.errors b)
      end
  | DELETE_task id =>
      match validate_path_id id with
      | Some id => respond 204 (λ _, Empty) (delete_task id)
      | None => unprocessable []
      end
  end.

(** Requests served one after the other. *)
Fixpoint serve (rs : list request) (s : state) : list response * state :=
  match rs with
  | [] => ([], s)
  | r :: rs' =>
      let '(resp, s') := app r s in
      let '(resps, s'') := serve rs' s' in
      (resp :: resps, s'')
  end.

(** States the service can be in: those some request sequence leads to. *)
Definition reachable (s : state) : Prop :=
  ∃ rs, (serve rs initial).2 = s.

(** The body [{"title": ti, "description": de, "status": st}]. *)
Definition task_json (ti de st : str) : json :=
  JObject [(lit "title", JString ti);
           (lit "description", JString de);
           (lit "status", JString st)].

Definition obj3 (ti de st : string) : json :=
  task_json (lit ti) (lit de) (lit st).

(** * Vocabulary of the statements *)

(** The two errors the handlers raise themselves, and a store whose mapping
    is replaced. *)
Definition not_found {A} : outcome A :=
  Raise (HTTPException 404 "Task not found").

Definition bad_request {A} : outcome A :=
  Raise (HTTPException 400 "title must not be empty").

Definition with_tasks (s : state) (d : gmap Z Task.t) : state :=
  mkState d (_NEXT_ID s).

(** ** The store invariant *)

Definition valid_title (ti : str) : Prop :=
  1 ≤ len ti ∧ is_empty (strip ti) = false.

Record wf (s : state) : Prop := mk_wf {
  wf_next : 1 ≤ _NEXT_ID s;
  wf_key : ∀ k t, _TASKS s !! k = Some t → Task.id t = k;
  wf_bound : ∀ k t, _TASKS s !! k = Some t → 1 ≤ k < _NEXT_ID s;
  wf_title : ∀ k t, _TASKS s !! k = Some t → valid_title (Task.title t)
}.

(** ** Issued ids *)

(** The id a response announces as newly created: only [POST /tasks]
    answers 201, with the created task as its body. *)
Definition created_id (resp : response) : option Z :=
  match body resp with
  | TaskBody t => if status_code resp =? 201 then Some (Task.id t) else None
  | _ => None
  end.

Definition ids_created (resps : list response) : list Z :=
  omap created_id resps.

(** ** Atomicity *)

(** A computation that leaves the store alone whenever it raises. *)
Definition atomic {A} (m : M A) : Prop :=
  ∀ s e, (m s).1 = Raise e → (m s).2 = s.

(** ** Patching *)

(** When a patch goes through: every field it sets holds a value, and a
    title it sets is not blank. *)
Definition patchable (p : TaskPatch.t) : Prop :=
  (TaskPatch.title_set p = true →
   ∃ ti, TaskPatch.title p = Some ti ∧ forallb is_space ti = false)
  ∧ (TaskPatch.description_set p = true → is_Some (TaskPatch.description p))
  ∧ (TaskPatch.status_set p = true → is_Some (TaskPatch.status p)).

(** The task a patch produces from the stored one. *)
Definition patched (p : TaskPatch.t) (t : Task.t) : Task.t :=
  Task.mk (Task.id t)
          (if TaskPatch.title_set p
           then default (Task.title t) (TaskPatch.title p)
           else Task.title t)
          (if TaskPatch.description_set p
           then default (Task.description t) (TaskPatch.description p)
           else Task.description t)
          (if TaskPatch.status_set p
           then default (Task.status t) (TaskPatch.status p)
           else Task.status t).

(** ** Listing *)

(** The order [sorted] arranges by: ascending key, ties allowed. *)
Definition key_le {A} (key : A → Z) (a b : A) : Prop := key a ≤ key b.

(** Requests that remove a task. *)
Definition is_delete (r : request) : bool :=
  match r with
  | DELETE_task _ => true
  | _ => false
  end.

(** ** Valid tasks *)

Definition valid_task (t : Task.t) : Prop :=
  1 ≤ Task.id t
  ∧ 1 ≤ len (Task.title t)
  ∧ is_empty (strip (Task.title t)) = false
  ∧ (Task.status t = pending ∨ Task.status t = completed)
  ∧ Task.init (Task.model_dump t) = Some t.

(** The tasks a response shows to the caller. *)
Definition response_tasks (resp : response) : list Task.t :=
  match body resp with
  | TaskBody t => [t]
  | TaskList l => l
  | _ => []
  end.

(** ** Routes, keys and patch payloads *)

(** The id a request removed: a [DELETE /tasks/{id}] answered 204. *)
Definition deleted_id (r : request) (resp : response) : option Z :=
  match r with
  | DELETE_task id => if status_code resp =? 204 then Some id else None
  | _ => None
  end.

Definition ids_deleted (rs : list request) (resps : list response) : list Z :=
  omap (λ x, deleted_id x.1 x.2) (zip rs resps).

(** The one key a route writes: the counter's value for a create, the path
    id for replace, patch and delete; the reading routes write none. *)
Definition touched (r : request) (s : state) : option Z :=
  match r with
  | POST_tasks _ => Some (_NEXT_ID s)
  | PUT_task id _ => Some id
  | PATCH_task id _ => Some id
  | DELETE_task id => Some id
  | GET_root => None
  | GET_tasks => None
  | GET_task _ => None
  end.

(** The status codes a route can answer with: the decorator's code, the
    codes of the [HTTPException]s its handler raises, 422 where a body or a
    path id is validated, and 500 where an exception can escape or a body
    has to be rendered from strings the client sent. *)
Definition allowed_status (r : request) : list Z :=
  match r with
  | GET_root => [200]
  | GET_tasks => [200; 500]
  | POST_tasks _ => [201; 400; 422; 500]
  | GET_task _ => [200; 404; 422; 500]
  | PUT_task _ _ => [200; 400; 404; 422; 500]
  | PATCH_task _ _ => [200; 400; 404; 422; 500]
  | DELETE_task _ => [204; 404; 422]
  end.

(** The id under which a request stores a new task: a create whose handler
    returns, whatever becomes of the response afterwards. *)
Definition issued_id (r : request) (s : state) : option Z :=
  match r with
  | POST_tasks b =>
      match TaskBase.validate b with
      | Some payload =>
          match (create_task payload s).1 with
          | Return t => Some (Task.id t)
          | Raise _ => None
          end
      | None => None
      end
  | _ => None
  end.

(** The ids issued along a run, in order. *)
Fixpoint ids_issued (rs : list request) (s : state) : list Z :=
  match rs with
  | [] => []
  | r :: rs' =>
      match issued_id r s with
      | Some i => i :: ids_issued rs' (app r s).2
      | None => ids_issued rs' (app r s).2
      end
  end.

(** Every stored description can be rendered. *)
Definition store_encodable (s : state) : Prop :=
  ∀ k t, _TASKS s !! k = Some t → utf8_encodable (Task.description t) = true.

(** The body of the request, if it has one, can be rendered. *)
Definition request_encodable (r : request) : bool :=
  match r with
  | POST_tasks b => json_encodable b
  | PUT_task _ b => json_encodable b
  | PATCH_task _ b => json_encodable b
  | GET_root => true
  | GET_tasks => true
  | GET_task _ => true
  | DELETE_task _ => true
  end.

(** The inputs quoted by the validation errors of a request. *)
Definition quoted (r : request) : list json :=
  match r with
  | POST_tasks b => TaskBase.errors b
  | PUT_task _ b => TaskBase.errors b
  | PATCH_task _ b => TaskPatch.errors b
  | GET_root => []
  | GET_tasks => []
  | GET_task _ => []
  | DELETE_task _ => []
  end.

(** The response to [GET /tasks] for a list of tasks. *)
Definition list_response (l : list Task.t) : response :=
  if forallb task_encodable l
  then mkResponse 200 (TaskList l)
  else mkResponse 500 InternalServerError.

Definition holds_None {A} (o : option A) : bool :=
  match o with
  | None => true
  | Some _ => false
  end.

(** The payload sets [title] to a string that strips to nothing. *)
Definition sets_blank_title (p : TaskPatch.t) : bool :=
  TaskPatch.title_set p
  && match TaskPatch.title p with
     | Some ti => is_empty (strip ti)
     | None => false
     end.

(** The payload sets some field to [None] (an explicit [null]). *)
Definition sets_none (p : TaskPatch.t) : bool :=
  (TaskPatch.title_set p && holds_None (TaskPatch.title p))
  || (TaskPatch.description_set p && holds_None (TaskPatch.description p))
  || (TaskPatch.status_set p && holds_None (TaskPatch.status p)).

(** The payload sets no field at all. *)
Definition sets_nothing (p : TaskPatch.t) : bool :=
  negb (TaskPatch.title_set p) && negb (TaskPatch.description_set p)
  && negb (TaskPatch.status_set p).

(** The request fails validation before any handler is called: a path id
    below 1, or a body the route's model does not accept. *)
Definition rejected (r : request) : bool :=
  match r with
  | GET_root => false
  | GET_tasks => false
  | POST_tasks b => holds_None (TaskBase.validate b)
  | GET_task id => holds_None (validate_path_id id)
  | PUT_task id b =>
      holds_None (validate_path_id id) || holds_None (TaskBase.validate b)
  | PATCH_task id b =>
      holds_None (validate_path_id id) || holds_None (TaskPatch.validate b)
  | DELETE_task id => holds_None (validate_path_id id)
  end.

(** * Properties *)

(** ** The scenarios of the interface description *)

Example scenario_1_to_4 :
  (serve [POST_tasks (obj3 "Buy milk" "2%" "pending");
          GET_task 1;
          PATCH_task 1 (JObject [(lit "status", JString (lit "completed"))]);
          DELETE_task 1;
          GET_task 1;
          PUT_task 999 (obj3 "a" "b" "pending")] initial).1
  = [mkResponse 201 (TaskBody (Task.mk 1 (lit "Buy milk") (lit "2%") pending));
     mkResponse 200 (TaskBody (Task.mk 1 (lit "Buy milk") (lit "2%") pending));
     mkResponse 200 (TaskBody (Task.mk 1 (lit "Buy milk") (lit "2%") completed));
     mkResponse 204 Empty;
     mkResponse 404 (Detail "Task not found");
     mkResponse 404 (Detail "Task not found")].
Proof. vm_compute. reflexivity. Qed.

(** ** Stripping *)

Section Strip.

Lemma lstrip_nil (s : str) : lstrip s = [] ↔ forallb is_space s = true.
Proof.
  induction s as [|c s IH]; simpl; [done|].
  destruct (is_space c); simpl; [exact IH|].
  split; discriminate.
Qed.

Lemma lstrip_head (s : str) c s' : lstrip s = c :: s' → is_space c = false.
Proof.
  induction s as [|d s IH]; simpl; [discriminate|].
  destruct (is_space d) eqn:Hd; [exact IH|].
  intros [= -> _]. exact Hd.
Qed.

Lemma forallb_rev (s : str) : forallb is_space (rev s) = forallb is_space s.
Proof.
  induction s as [|c s IH]; simpl; [done|].
  rewrite forallb_app, IH. simpl. rewrite andb_true_r. apply andb_comm.
Qed.

(** [s.strip() == ""] holds exactly when every character of [s] is a
    whitespace character. *)
Lemma strip_empty (s : str) :
  is_empty (strip s) = true ↔ forallb is_space s = true.
Proof.
  unfold strip, rstrip.
  destruct (lstrip s) as [|c s'] eqn:Hl.
  - simpl. rewrite <- lstrip_nil, Hl. done.
  - assert (Hs : forallb is_space s = false).
    { destruct (forallb is_space s) eqn:E; [|done].
      apply lstrip_nil in E. congruence. }
    rewrite Hs.
    assert (Hc := lstrip_head _ _ _ Hl).
    destruct (lstrip (rev (c :: s'))) as [|d r] eqn:Hr.
    + apply lstrip_nil in Hr. rewrite forallb_rev in Hr.
      simpl in Hr. rewrite Hc in Hr. discriminate.
    + split; [|discriminate].
      simpl. destruct (rev r ++ [d]) eqn:E; [|discriminate].
      by destruct (rev r).
Qed.

Lemma strip_nonempty (s : str) :
  is_empty (strip s) = false ↔ forallb is_space s = false.
Proof.
  split; intros H.
  - destruct (forallb is_space s) eqn:E; [|done].
    apply strip_empty in E. congruence.
  - destruct (is_empty (strip s)) eqn:E; [|done].
    apply strip_empty in E. congruence.
Qed.

(** A title that survives stripping has at least one character. *)
Lemma strip_nonempty_len (s : str) : is_empty (strip s) = false → 1 ≤ len s.
Proof.
  intros H. destruct s; [discriminate|]. unfold len. simpl. lia.
Qed.

End Strip.

(** ** What each handler computes *)

Lemma _get_task_or_404_eq id s :
  _get_task_or_404 id s =
  match _TASKS s !! id with
  | Some t => (Return t, s)
  | None => (not_found, s)
  end.
Proof.
  unfold _get_task_or_404, mbind, M_bind, read_TASKS.
  by destruct (_TASKS s !! id).
Qed.

Lemma create_task_eq p s :
  create_task p s =
  let n := _NEXT_ID s in
  let t := Task.mk n (TaskBase.title p) (TaskBase.description p)
                   (TaskBase.status p) in
  if is_empty (strip (TaskBase.title p)) then (bad_request, s)
  else if (1 <=? n) && (1 <=? len (TaskBase.title p))
       then (Return t, mkState (<[n := t]> (_TASKS s)) (n + 1))
       else (Raise ValidationError, s).
Proof.
  unfold create_task. cbv zeta.
  destruct (is_empty _); [done|].
  unfold mbind, M_bind, read_NEXT_ID, construct, Task.init. simpl.
  by destruct (_ && _).
Qed.

Lemma update_task_eq p id s :
  update_task p id s =
  let t := Task.mk id (TaskBase.title p) (TaskBase.description p)
                   (TaskBase.status p) in
  match _TASKS s !! id with
  | None => (not_found, s)
  | Some _ =>
      if is_empty (strip (TaskBase.title p)) then (bad_request, s)
      else if (1 <=? id) && (1 <=? len (TaskBase.title p))
           then (Return t, with_tasks s (<[id := t]> (_TASKS s)))
           else (Raise ValidationError, s)
  end.
Proof.
  unfold update_task. unfold mbind at 1. unfold M_bind at 1.
  rewrite _get_task_or_404_eq. cbv zeta.
  destruct (_TASKS s !! id); [|done].
  destruct (is_empty _); [done|].
  unfold mbind, M_bind, construct, Task.init. simpl.
  by destruct (_ && _).
Qed.

Lemma patch_task_eq p id s :
  patch_task p id s =
  match _TASKS s !! id with
  | None => (not_found, s)
  | Some existing =>
      let patch_data := TaskPatch_model_dump_exclude_unset p in
      if match Data.title patch_data with
         | Some (Some ti) => is_empty (strip ti)
         | _ => false
         end
      then (bad_request, s)
      else match Task.init (Data.update (Task.model_dump existing) patch_data) with
           | Some u => (Return u, with_tasks s (<[id := u]> (_TASKS s)))
           | None => (Raise ValidationError, s)
           end
  end.
Proof.
  unfold patch_task. unfold mbind at 1. unfold M_bind at 1.
  rewrite _get_task_or_404_eq. cbv zeta.
  destruct (_TASKS s !! id) as [existing|]; [|done].
  match goal with |- context [if ?b then _ else _] => destruct b end; [done|].
  unfold mbind, M_bind, construct.
  by destruct (Task.init _).
Qed.

Lemma delete_task_eq id s :
  delete_task id s =
  match _TASKS s !! id with
  | None => (not_found, s)
  | Some _ => (Return tt, with_tasks s (delete id (_TASKS s)))
  end.
Proof.
  unfold delete_task. unfold mbind at 1. unfold M_bind at 1.
  rewrite _get_task_or_404_eq.
  destruct (_TASKS s !! id) eqn:E; [|done].
  unfold mbind, M_bind, delitem. by rewrite E.
Qed.

Lemma list_tasks_eq s :
  list_tasks s = (Return (sorted Task.id (values (_TASKS s))), s).
Proof. reflexivity. Qed.

(** A successful patch: which fields of the stored task it keeps and which
    it takes from the payload. *)
Lemma patch_init_Some existing p u :
  Task.init (Data.update (Task.model_dump existing)
                         (TaskPatch_model_dump_exclude_unset p)) = Some u →
  Task.id u = Task.id existing
  ∧ (if TaskPatch.title_set p
     then TaskPatch.title p = Some (Task.title u)
     else Task.title u = Task.title existing)
  ∧ (if TaskPatch.description_set p
     then TaskPatch.description p = Some (Task.description u)
     else Task.description u = Task.description existing)
  ∧ (if TaskPatch.status_set p
     then TaskPatch.status p = Some (Task.status u)
     else Task.status u = Task.status existing)
  ∧ 1 ≤ Task.id u ∧ 1 ≤ len (Task.title u).
Proof.
  destruct p as [ti de st bt bd bs], existing as [i eti ede est].
  unfold Task.init, Data.update, TaskPatch_model_dump_exclude_unset. simpl.
  destruct bt, bd, bs, ti, de, st; simpl; try discriminate;
    match goal with |- context [if ?b then _ else _] => destruct b eqn:Hb end;
    try discriminate;
    intros [= <-]; simpl; apply andb_true_iff in Hb as [?%Z.leb_le ?%Z.leb_le];
    repeat split; done.
Qed.

Lemma wf_initial : wf initial.
Proof. split; simpl; try lia; intros k t; by rewrite lookup_empty. Qed.

Lemma wf_insert s k t n :
  wf s → Task.id t = k → 1 ≤ k < n → _NEXT_ID s ≤ n →
  valid_title (Task.title t) →
  wf (mkState (<[k := t]> (_TASKS s)) n).
Proof.
  intros [Hn Hk Hb Ht] Hid Hkn Hle Hv.
  split; simpl; [lia| | |]; intros k' t'; rewrite lookup_insert;
    case_decide; intros E; simplify_eq; eauto.
  apply Hb in E. lia.
Qed.

Lemma wf_delete s k : wf s → wf (with_tasks s (delete k (_TASKS s))).
Proof.
  intros [Hn Hk Hb Ht].
  split; simpl; [lia| | |]; intros k' t'; rewrite lookup_delete;
    case_decide; intros E; simplify_eq; eauto.
Qed.

Lemma create_task_wf p s : wf s → wf (create_task p s).2.
Proof.
  intros Hwf. rewrite create_task_eq. cbv zeta.
  destruct (is_empty _) eqn:He; [done|].
  destruct (_ && _) eqn:Hc; [|done]. simpl.
  apply andb_true_iff in Hc as [?%Z.leb_le ?%Z.leb_le].
  apply wf_insert; simpl; try done; try lia.
Qed.

Lemma update_task_wf p id s : wf s → wf (update_task p id s).2.
Proof.
  intros Hwf. rewrite update_task_eq. cbv zeta.
  destruct (_TASKS s !! id) as [t|] eqn:Hl; [|done].
  destruct (is_empty _) eqn:He; [done|].
  destruct (_ && _) eqn:Hc; [|done]. simpl.
  apply andb_true_iff in Hc as [?%Z.leb_le ?%Z.leb_le].
  apply wf_bound in Hl; [|done].
  apply wf_insert; simpl; try done; try lia.
Qed.

Lemma patch_task_wf p id s : wf s → wf (patch_task p id s).2.
Proof.
  intros Hwf. rewrite patch_task_eq. cbv zeta.
  destruct (_TASKS s !! id) as [t|] eqn:Hl; [|done].
  match goal with |- context [if ?b then _ else _] => destruct b eqn:Hg end;
    [done|].
  destruct (Task.init _) as [u|] eqn:Hi; [|done]. simpl.
  apply patch_init_Some in Hi as (Hid & Hti & _ & _ & ? & ?).
  pose proof (wf_key _ Hwf _ _ Hl). pose proof (wf_bound _ Hwf _ _ Hl).
  pose proof (wf_title _ Hwf _ _ Hl) as Hv.
  apply wf_insert; try done; try lia.
  split; [done|].
  destruct p as [ti de st bt bd bs]; simpl in *.
  destruct bt; [|rewrite Hti; apply Hv].
  subst ti. exact Hg.
Qed.

Lemma delete_task_wf id s : wf s → wf (delete_task id s).2.
Proof.
  intros Hwf. rewrite delete_task_eq.
  destruct (_TASKS s !! id); [|done]. by apply wf_delete.
Qed.

Lemma respond_state {A} c (f : A → content) (m : M A) s :
  (respond c f m s).2 = (m s).2.
Proof.
  unfold respond. destruct (m s) as [[a|[sc d| |]] s']; done.
Qed.

Lemma app_wf r s : wf s → wf (app r s).2.
Proof.
  intros Hwf. destruct r as [| |b|id|id b|id b|id]; simpl; try done.
  - destruct (TaskBase.validate b); [|done].
    rewrite respond_state. by apply create_task_wf.
  - destruct (validate_path_id id); [|done].
    rewrite respond_state. unfold get_task. rewrite _get_task_or_404_eq.
    by destruct (_TASKS s !! _).
  - destruct (validate_path_id id), (TaskBase.validate b); try done.
    rewrite respond_state. by apply update_task_wf.
  - destruct (validate_path_id id), (TaskPatch.validate b); try done.
    rewrite respond_state. by apply patch_task_wf.
  - destruct (validate_path_id id); [|done].
    rewrite respond_state. by apply delete_task_wf.
Qed.

Lemma serve_cons r rs s :
  serve (r :: rs) s =
  ((app r s).1 :: (serve rs (app r s).2).1, (serve rs (app r s).2).2).
Proof.
  simpl. destruct (app r s) as [resp s']. simpl.
  by destruct (serve rs s').
Qed.

Lemma serve_app rs1 rs2 s :
  serve (rs1 ++ rs2) s =
  ((serve rs1 s).1 ++ (serve rs2 (serve rs1 s).2).1,
   (serve rs2 (serve rs1 s).2).2).
Proof.
  revert s. induction rs1 as [|r rs1 IH]; intros s.
  - simpl. by destruct (serve rs2 s).
  - rewrite <- app_comm_cons, !serve_cons, IH. done.
Qed.

Lemma serve_wf rs s : wf s → wf (serve rs s).2.
Proof.
  revert s. induction rs as [|r rs IH]; intros s Hwf; [done|].
  rewrite serve_cons. simpl. by apply IH, app_wf.
Qed.

Lemma reachable_wf s : reachable s → wf s.
Proof. intros [rs <-]. apply serve_wf, wf_initial. Qed.

Lemma reachable_initial : reachable initial.
Proof. by exists []. Qed.

Lemma reachable_serve rs s : reachable s → reachable (serve rs s).2.
Proof.
  intros [rs0 <-]. exists (rs0 ++ rs). by rewrite serve_app.
Qed.

(** ** Identifier issuance *)

(** Every case of a request: the validations, what the handler computes,
    and whether the response can be rendered. *)
Ltac app_cases :=
  cbn [app];
  repeat match goal with
         | |- context [validate_path_id ?i] =>
             destruct (validate_path_id i) eqn:?
         | |- context [TaskBase.validate ?b] =>
             destruct (TaskBase.validate b) eqn:?
         | |- context [TaskPatch.validate ?b] =>
             destruct (TaskPatch.validate b) eqn:?
         end;
  unfold respond, unprocessable, get_task;
  rewrite ?create_task_eq, ?update_task_eq, ?patch_task_eq, ?delete_task_eq,
    ?_get_task_or_404_eq, ?list_tasks_eq;
  cbv zeta; cbn [content_encodable forallb];
  repeat match goal with
         | |- context [match _TASKS ?s !! ?i with _ => _ end] =>
             destruct (_TASKS s !! i) eqn:?
         | |- context [if ?c then _ else _] => destruct c eqn:?
         | |- context [match Task.init ?d with _ => _ end] =>
             destruct (Task.init d) eqn:?
         end.

(** One request issues no id with status 201 unless it is the counter's
    value, and the counter stays or advances by one; it advances whenever
    an id is announced. *)
Lemma app_issue r s :
  (created_id (app r s).1 = None
   ∧ (_NEXT_ID (app r s).2 = _NEXT_ID s
      ∨ _NEXT_ID (app r s).2 = _NEXT_ID s + 1))
  ∨ (created_id (app r s).1 = Some (_NEXT_ID s)
     ∧ _NEXT_ID (app r s).2 = _NEXT_ID s + 1).
Proof.
  destruct r as [| |b|id|id b|id b|id]; app_cases;
    solve [ left; split; [reflexivity|left; reflexivity]
          | left; split; [reflexivity|right; reflexivity]
          | right; split; reflexivity ].
Qed.

Lemma serve_issue rs s :
  StronglySorted Z.lt (ids_created (serve rs s).1)
  ∧ Forall (λ i, _NEXT_ID s ≤ i < _NEXT_ID (serve rs s).2)
           (ids_created (serve rs s).1)
  ∧ _NEXT_ID s ≤ _NEXT_ID (serve rs s).2.
Proof.
  revert s. induction rs as [|r rs IH]; intros s.
  - simpl. repeat split; [constructor|constructor|lia].
  - rewrite serve_cons. simpl.
    destruct (IH (app r s).2) as (Hs & Hb & Hn).
    unfold ids_created in *. simpl.
    destruct (app_issue r s) as [[-> E]|[-> E]].
    + repeat split; [done| |lia].
      eapply Forall_impl; [exact Hb|]. simpl. lia.
    + rewrite E in *. repeat split; [|constructor|lia].
      * constructor; [done|].
        eapply Forall_impl; [exact Hb|]. simpl. lia.
      * lia.
      * eapply Forall_impl; [exact Hb|]. simpl. lia.
Qed.

(** C1. Along any sequence of requests served from the empty store, the ids
    returned by successive creates are strictly increasing, so none occurs
    twice, whatever deletes (or other requests) come in between; and the
    counter stays strictly above every id issued. *)
Theorem C1_created_ids_strictly_increasing (rs : list request) :
  let ids := ids_created (serve rs initial).1 in
  StronglySorted Z.lt ids
  ∧ NoDup ids
  ∧ Forall (λ i, 1 ≤ i < _NEXT_ID (serve rs initial).2) ids.
Proof.
  cbv zeta. destruct (serve_issue rs initial) as (Hs & Hb & _).
  repeat split; [done| |done].
  clear Hb. induction Hs as [|i l _ IH Hall]; constructor; [|done].
  intros Hin. rewrite Forall_forall in Hall. apply Hall in Hin. lia.
Qed.

Example created_ids_with_deletes :
  ids_created
    (serve [POST_tasks (obj3 "a" "" "pending"); DELETE_task 1;
            POST_tasks (obj3 "b" "" "pending"); DELETE_task 2;
            POST_tasks (obj3 "" "" "pending");
            POST_tasks (obj3 "c" "" "completed")] initial).1
  = [1; 2; 3].
Proof. vm_compute. reflexivity. Qed.

(** ** Failures are atomic *)

Lemma _get_task_or_404_atomic id : atomic (_get_task_or_404 id).
Proof.
  intros s e. rewrite _get_task_or_404_eq. by destruct (_TASKS s !! id).
Qed.

Lemma create_task_atomic p : atomic (create_task p).
Proof.
  intros s e. rewrite create_task_eq. cbv zeta.
  destruct (is_empty _); [done|]. by destruct (_ && _).
Qed.

Lemma update_task_atomic p id : atomic (update_task p id).
Proof.
  intros s e. rewrite update_task_eq. cbv zeta.
  destruct (_TASKS s !! id); [|done].
  destruct (is_empty _); [done|]. by destruct (_ && _).
Qed.

Lemma patch_task_atomic p id : atomic (patch_task p id).
Proof.
  intros s e. rewrite patch_task_eq. cbv zeta.
  destruct (_TASKS s !! id); [|done].
  match goal with |- context [if ?c then _ else _] => destruct c end; [done|].
  by destruct (Task.init _).
Qed.

Lemma delete_task_atomic id : atomic (delete_task id).
Proof.
  intros s e. rewrite delete_task_eq. by destruct (_TASKS s !! id).
Qed.

Lemma app_client_error_state r s :
  status_code (app r s).1 ∈ [400; 404; 422] → (app r s).2 = s.
Proof.
  destruct r as [| |b|id|id b|id b|id]; app_cases; cbn [fst snd status_code];
    intros H; first [reflexivity
                    | exfalso; apply list_elem_of_In in H; simpl in H;
                      intuition lia].
Qed.

Lemma app_rejected_state r s : rejected r = true → (app r s).2 = s.
Proof.
  destruct r as [| |b|id|id b|id b|id]; cbn [rejected]; app_cases;
    cbn [fst snd holds_None orb]; intros H; first [reflexivity|discriminate].
Qed.

(** C8. A request answered 404, 400 or 422 leaves the task mapping and the
    id counter exactly as they were, and so does every request that fails
    validation; and whenever a handler raises (an [HTTPException], or the
    [ValidationError] of constructing a task) it has written nothing. *)
Theorem C8_failing_request_leaves_state (r : request) (s : state) :
  (status_code (app r s).1 ∈ [400; 404; 422] → (app r s).2 = s)
  ∧ (rejected r = true → (app r s).2 = s)
  ∧ (∀ p, atomic (create_task p))
  ∧ (∀ id, atomic (get_task id))
  ∧ (∀ p id, atomic (update_task p id))
  ∧ (∀ p id, atomic (patch_task p id))
  ∧ (∀ id, atomic (delete_task id)).
Proof.
  split; [apply app_client_error_state|].
  split; [apply app_rejected_state|].
  split; [apply create_task_atomic|].
  split; [apply _get_task_or_404_atomic|].
  split; [apply update_task_atomic|].
  split; [apply patch_task_atomic|apply delete_task_atomic].
Qed.

Lemma C8_failing_request_leaves_state_witness :
  (app (PUT_task 999 (obj3 "a" "b" "pending")) initial).2 = initial
  ∧ (app (POST_tasks (obj3 "" "b" "pending")) initial).2 = initial
  ∧ (patch_task (TaskPatch.mk None None None false true false) 1
       (app (POST_tasks (obj3 "a" "b" "pending")) initial).2).2
    = (app (POST_tasks (obj3 "a" "b" "pending")) initial).2.
Proof.
  split; [|split].
  - destruct (C8_failing_request_leaves_state
                (PUT_task 999 (obj3 "a" "b" "pending")) initial) as (H & _).
    apply H. vm_compute. apply list_elem_of_In. simpl. auto.
  - destruct (C8_failing_request_leaves_state
                (POST_tasks (obj3 "" "b" "pending")) initial) as (_ & H & _).
    apply H. reflexivity.
  - destruct (C8_failing_request_leaves_state GET_root initial)
      as (_ & _ & _ & _ & _ & H & _).
    apply (H _ _ _ ValidationError). reflexivity.
Defined.

(** ** Request validation on the bodies used below *)

Lemma check_task_json ti de st :
  TaskBase.check (task_json ti de (TaskStatus_value st)) =
  if utf8_encodable ti && (1 <=? len ti)
  then inl (TaskBase.mk ti de st)
  else inr [JString ti].
Proof.
  unfold TaskBase.check, task_json. cbv zeta.
  replace (member (lit "title") _) with (Some (JString ti)) by reflexivity.
  replace (member (lit "description") _) with (Some (JString de))
    by reflexivity.
  replace (member (lit "status") _)
    with (Some (JString (TaskStatus_value st))) by reflexivity.
  unfold required, validate_str.
  destruct (utf8_encodable ti && (1 <=? len ti)); by destruct st.
Qed.

Lemma validate_task_json ti de st :
  TaskBase.validate (task_json ti de (TaskStatus_value st)) =
  if utf8_encodable ti && (1 <=? len ti)
  then Some (TaskBase.mk ti de st)
  else None.
Proof.
  unfold TaskBase.validate. rewrite check_task_json.
  by destruct (_ && _).
Qed.

Lemma errors_task_json ti de st :
  TaskBase.errors (task_json ti de (TaskStatus_value st)) =
  if utf8_encodable ti && (1 <=? len ti) then [] else [JString ti].
Proof.
  unfold TaskBase.errors. rewrite check_task_json.
  by destruct (_ && _).
Qed.

Lemma validate_patch_description x :
  TaskPatch.validate (JObject [(lit "description", JString x)]) =
  Some (TaskPatch.mk None (Some x) None false true false).
Proof. reflexivity. Qed.

Lemma required_inv {A} body (v : json → validation A) o a :
  required body v o = Valid a → ∃ j, o = Some j ∧ v j = Valid a.
Proof. destruct o as [j|]; [eauto|discriminate]. Qed.

Lemma validate_str_inv m j s :
  validate_str m j = Valid s →
  j = JString s
  ∧ match m with
    | Some n => utf8_encodable s = true ∧ n ≤ len s
    | None => True
    end.
Proof.
  destruct j as [| | | |s'| |]; try discriminate. simpl.
  destruct m as [n|]; [|by intros [= ->]].
  destruct (utf8_encodable s' && (n <=? len s')) eqn:E; [|discriminate].
  intros [= <-]. by apply andb_true_iff in E as [? ?%Z.leb_le].
Qed.

Lemma validate_status_inv j st :
  validate_status j = Valid st → j = JString (TaskStatus_value st).
Proof.
  destruct j as [| | | |s| |]; try discriminate. unfold validate_status.
  destruct (decide (s = TaskStatus_value pending)) as [->|];
    [by intros [= <-]|].
  destruct (decide (s = TaskStatus_value completed)) as [->|];
    [by intros [= <-]|discriminate].
Qed.

(** What a body that validates looks like. *)
Lemma validate_base_inv b p :
  TaskBase.validate b = Some p →
  1 ≤ len (TaskBase.title p)
  ∧ utf8_encodable (TaskBase.title p) = true
  ∧ ∃ ms, b = JObject ms
          ∧ member (lit "title") ms = Some (JString (TaskBase.title p))
          ∧ member (lit "description") ms
            = Some (JString (TaskBase.description p))
          ∧ member (lit "status") ms
            = Some (JString (TaskStatus_value (TaskBase.status p))).
Proof.
  unfold TaskBase.validate, TaskBase.check.
  destruct b as [| | | | | |ms]; try discriminate. cbv zeta.
  destruct (required _ (validate_str (Some 1)) _) as [ti|] eqn:Ht;
    [|discriminate].
  destruct (required _ (validate_str None) _) as [de|] eqn:Hd;
    [|discriminate].
  destruct (required _ validate_status _) as [st|] eqn:Hs; [|discriminate].
  intros [= <-]. simpl.
  apply required_inv in Ht as (jt & Ht & (-> & Hu & Hl)%validate_str_inv).
  apply required_inv in Hd as (jd & Hd & (-> & _)%validate_str_inv).
  apply required_inv in Hs as (js & Hs & ->%validate_status_inv).
  eauto 10.
Qed.

Lemma validate_base_title b p :
  TaskBase.validate b = Some p → 1 ≤ len (TaskBase.title p).
Proof. intros H. by apply validate_base_inv in H as (? & _). Qed.

Lemma validate_base_utf8 b p :
  TaskBase.validate b = Some p → utf8_encodable (TaskBase.title p) = true.
Proof. intros H. by apply validate_base_inv in H as (_ & ? & _). Qed.

(** A field of a patch that validates: what the payload holds for it came
    from the member of that name. *)
Lemma optional_inv {A} (v : json → validation A) o a b :
  optional v o = Valid (a, b) →
  match a with
  | Some x => ∃ j, o = Some j ∧ v j = Valid x ∧ b = true
  | None => (o = None ∧ b = false) ∨ (o = Some JNull ∧ b = true)
  end.
Proof.
  unfold optional. destruct o as [j|]; [|intros [= <- <-]; by left].
  destruct j; try (intros [= <- <-]; by right);
    match goal with |- context [v ?j] => destruct (v j) eqn:E end;
    try discriminate; intros [= <- <-]; eauto.
Qed.

Lemma validate_patch_inv b p :
  TaskPatch.validate b = Some p →
  ∃ ms, b = JObject ms
        ∧ optional (validate_str (Some 1)) (member (lit "title") ms)
          = Valid (TaskPatch.title p, TaskPatch.title_set p)
        ∧ optional (validate_str None) (member (lit "description") ms)
          = Valid (TaskPatch.description p, TaskPatch.description_set p)
        ∧ optional validate_status (member (lit "status") ms)
          = Valid (TaskPatch.status p, TaskPatch.status_set p).
Proof.
  unfold TaskPatch.validate, TaskPatch.check.
  destruct b as [| | | | | |ms]; try discriminate. cbv zeta.
  destruct (optional (validate_str (Some 1)) _) as [[ti bt]|] eqn:Ht;
    [|discriminate].
  destruct (optional (validate_str None) _) as [[de bd]|] eqn:Hd;
    [|discriminate].
  destruct (optional validate_status _) as [[st bs]|] eqn:Hs;
    [|discriminate].
  intros [= <-]. simpl. exists ms. by repeat split.
Qed.

Lemma validate_patch_title b p ti :
  TaskPatch.validate b = Some p → TaskPatch.title p = Some ti →
  utf8_encodable ti = true ∧ 1 ≤ len ti.
Proof.
  intros (ms & _ & Ht & _)%validate_patch_inv Hti. rewrite Hti in Ht.
  apply optional_inv in Ht as (j & _ & Hv & _).
  by apply validate_str_inv in Hv as [_ ?].
Qed.

(** ** Helpers for the request layer *)

Lemma path_id_ok id : 1 ≤ id → validate_path_id id = Some id.
Proof.
  intros H. unfold validate_path_id. destruct (Z.leb_spec 1 id); [done|lia].
Qed.

Lemma path_id_inv id j : validate_path_id id = Some j → j = id ∧ 1 ≤ id.
Proof.
  unfold validate_path_id. destruct (Z.leb_spec 1 id); [|discriminate].
  by intros [= <-].
Qed.

Lemma path_id_of_stored s id t :
  wf s → _TASKS s !! id = Some t → validate_path_id id = Some id.
Proof.
  intros Hwf Ht. apply (wf_bound _ Hwf) in Ht. apply path_id_ok. lia.
Qed.

Lemma wf_fresh s : wf s → _TASKS s !! _NEXT_ID s = None.
Proof.
  intros Hwf. destruct (_TASKS s !! _NEXT_ID s) as [t|] eqn:E; [|done].
  apply (wf_bound _ Hwf) in E. lia.
Qed.

Lemma respond_return {A} c (f : A → content) (m : M A) s a s' :
  m s = (Return a, s') →
  respond c f m s
  = (if content_encodable (f a) then mkResponse c (f a)
     else mkResponse 500 InternalServerError, s').
Proof. intros H. unfold respond. by rewrite H. Qed.

Lemma respond_raise {A} c (f : A → content) (m : M A) s sc d s' :
  m s = (Raise (HTTPException sc d), s') →
  respond c f m s = (mkResponse sc (Detail d), s').
Proof. intros H. unfold respond. by rewrite H. Qed.

(** The titles in the store went through the title validation of a model,
    so they can be rendered. *)
Lemma app_titles r s :
  (∀ k t, _TASKS s !! k = Some t → utf8_encodable (Task.title t) = true) →
  ∀ k t, _TASKS (app r s).2 !! k = Some t →
         utf8_encodable (Task.title t) = true.
Proof.
  intros Hs k t.
  destruct r as [| |b|id|id b|id b|id]; app_cases; cbn [snd _TASKS];
    try (by apply Hs).
  all: unfold with_tasks; cbn [_TASKS].
  all: try (intros [_ H]%lookup_delete_Some; by eapply Hs).
  all: rewrite lookup_insert; case_decide; [|by apply Hs]; intros [= <-].
  all: try (simpl; by eapply validate_base_utf8).
  all: match goal with
       | H : Task.init _ = Some _ |- _ =>
           apply patch_init_Some in H as (_ & Hti & _)
       end.
  all: match goal with
       | H : TaskPatch.validate _ = Some ?p |- _ =>
           destruct (TaskPatch.title_set p);
           [by destruct (validate_patch_title _ _ _ H Hti)
           |rewrite Hti; by eapply Hs]
       end.
Qed.

Lemma serve_titles rs s :
  (∀ k t, _TASKS s !! k = Some t → utf8_encodable (Task.title t) = true) →
  ∀ k t, _TASKS (serve rs s).2 !! k = Some t →
         utf8_encodable (Task.title t) = true.
Proof.
  revert s. induction rs as [|r rs IH]; intros s Hs; [done|].
  rewrite serve_cons. simpl. by apply IH, app_titles.
Qed.

Lemma reachable_title s k t :
  reachable s → _TASKS s !! k = Some t →
  utf8_encodable (Task.title t) = true.
Proof.
  intros [rs <-]. apply serve_titles. intros k' t'.
  simpl. by rewrite lookup_empty.
Qed.

Lemma create_task_ok s p :
  wf s → forallb is_space (TaskBase.title p) = false →
  let n := _NEXT_ID s in
  let t := Task.mk n (TaskBase.title p) (TaskBase.description p)
                   (TaskBase.status p) in
  create_task p s = (Return t, mkState (<[n := t]> (_TASKS s)) (n + 1)).
Proof.
  intros Hwf Hsp%strip_nonempty. cbv zeta.
  pose proof (strip_nonempty_len _ Hsp) as Hlen.
  pose proof (wf_next _ Hwf) as Hn.
  rewrite create_task_eq. cbv zeta. rewrite Hsp.
  destruct (Z.leb_spec 1 (_NEXT_ID s)); [|lia].
  destruct (Z.leb_spec 1 (len (TaskBase.title p))); [|lia]. done.
Qed.

Lemma app_create s b p :
  wf s → TaskBase.validate b = Some p →
  forallb is_space (TaskBase.title p) = false →
  let n := _NEXT_ID s in
  let t := Task.mk n (TaskBase.title p) (TaskBase.description p)
                   (TaskBase.status p) in
  app (POST_tasks b) s
  = (if utf8_encodable (TaskBase.description p)
     then mkResponse 201 (TaskBody t)
     else mkResponse 500 InternalServerError,
     mkState (<[n := t]> (_TASKS s)) (n + 1)).
Proof.
  intros Hwf Hv Hsp. cbv zeta. cbn [app]. rewrite Hv.
  rewrite (respond_return _ _ _ _ _ _ (create_task_ok s p Hwf Hsp)).
  cbn [content_encodable]. unfold task_encodable. simpl.
  by rewrite (validate_base_utf8 _ _ Hv).
Qed.

Lemma update_task_ok s p id t0 :
  1 ≤ id → _TASKS s !! id = Some t0 →
  forallb is_space (TaskBase.title p) = false →
  let t := Task.mk id (TaskBase.title p) (TaskBase.description p)
                   (TaskBase.status p) in
  update_task p id s = (Return t, with_tasks s (<[id := t]> (_TASKS s))).
Proof.
  intros Hid Ht Hsp%strip_nonempty. cbv zeta.
  pose proof (strip_nonempty_len _ Hsp) as Hlen.
  rewrite update_task_eq, Ht. cbv zeta. rewrite Hsp.
  destruct (Z.leb_spec 1 id); [|lia].
  destruct (Z.leb_spec 1 (len (TaskBase.title p))); [|lia]. done.
Qed.

Lemma app_update s id t0 b p :
  1 ≤ id → _TASKS s !! id = Some t0 → TaskBase.validate b = Some p →
  forallb is_space (TaskBase.title p) = false →
  let t := Task.mk id (TaskBase.title p) (TaskBase.description p)
                   (TaskBase.status p) in
  app (PUT_task id b) s
  = (if utf8_encodable (TaskBase.description p)
     then mkResponse 200 (TaskBody t)
     else mkResponse 500 InternalServerError,
     with_tasks s (<[id := t]> (_TASKS s))).
Proof.
  intros Hid Ht Hv Hsp. cbv zeta. cbn [app]. rewrite path_id_ok, Hv by done.
  rewrite (respond_return _ _ _ _ _ _ (update_task_ok s p id t0 Hid Ht Hsp)).
  cbn [content_encodable]. unfold task_encodable. simpl.
  by rewrite (validate_base_utf8 _ _ Hv).
Qed.

Lemma app_get s id t :
  1 ≤ id → _TASKS s !! id = Some t →
  app (GET_task id) s
  = (if task_encodable t then mkResponse 200 (TaskBody t)
     else mkResponse 500 InternalServerError, s).
Proof.
  intros Hid Ht. cbn [app]. rewrite path_id_ok by done.
  apply (respond_return 200 TaskBody). unfold get_task.
  by rewrite _get_task_or_404_eq, Ht.
Qed.

(** ** Empty and whitespace-only titles *)

(** C2. [POST /tasks] with [title] equal to the empty string never reaches
    the handler: the model's [min_length=1] rejects the body, the answer is
    422 (not 400) and the store is unchanged. The handler's own guard would
    answer 400 for such a payload. *)
Theorem C2_post_empty_title_is_422 (s : state) (de : str) (st : TaskStatus) :
  app (POST_tasks (task_json [] de (TaskStatus_value st))) s
  = (mkResponse 422 ValidationDetail, s)
  ∧ create_task (TaskBase.mk [] de st) s = (bad_request, s).
Proof.
  split.
  - cbn [app]. by rewrite validate_task_json, errors_task_json.
  - by rewrite create_task_eq.
Qed.

Example scenario_5 :
  app (POST_tasks (obj3 "" "x" "pending")) initial
  = (mkResponse 422 ValidationDetail, initial).
Proof. vm_compute. reflexivity. Qed.

(** C7. On a reachable store, a body that passes model validation and whose
    title consists of whitespace only is answered 400 by create, by replace
    and by patch (for a stored id), the store staying as it was. A create
    whose validated title has a non-whitespace character succeeds and stores
    the title exactly as supplied (answered 201 when the description can be
    rendered); so a body with the title ["  valid  "] validates whatever its
    description, and the task is stored with the spaces of the title. *)
Theorem C7_whitespace_only_title (s : state) :
  reachable s →
  (∀ b p, TaskBase.validate b = Some p →
          forallb is_space (TaskBase.title p) = true →
          app (POST_tasks b) s
          = (mkResponse 400 (Detail "title must not be empty"), s)
          ∧ ∀ id, is_Some (_TASKS s !! id) →
                  app (PUT_task id b) s
                  = (mkResponse 400 (Detail "title must not be empty"), s))
  ∧ (∀ b p ti id, TaskPatch.validate b = Some p →
                  TaskPatch.title_set p = true → TaskPatch.title p = Some ti →
                  forallb is_space ti = true →
                  is_Some (_TASKS s !! id) →
                  app (PATCH_task id b) s
                  = (mkResponse 400 (Detail "title must not be empty"), s))
  ∧ (∀ b p, TaskBase.validate b = Some p →
            forallb is_space (TaskBase.title p) = false →
            let t := Task.mk (_NEXT_ID s) (TaskBase.title p)
                             (TaskBase.description p) (TaskBase.status p) in
            let s' := mkState (<[_NEXT_ID s := t]> (_TASKS s))
                              (_NEXT_ID s + 1) in
            create_task p s = (Return t, s')
            ∧ (app (POST_tasks b) s).2 = s'
            ∧ (utf8_encodable (TaskBase.description p) = true →
               (app (POST_tasks b) s).1 = mkResponse 201 (TaskBody t)))
  ∧ (∀ de st,
       let b := task_json (lit "  valid  ") de (TaskStatus_value st) in
       let p := TaskBase.mk (lit "  valid  ") de st in
       let t := Task.mk (_NEXT_ID s) (lit "  valid  ") de st in
       let s' := mkState (<[_NEXT_ID s := t]> (_TASKS s)) (_NEXT_ID s + 1) in
       TaskBase.validate b = Some p
       ∧ create_task p s = (Return t, s')
       ∧ (app (POST_tasks b) s).2 = s'
       ∧ (utf8_encodable de = true →
          app (POST_tasks b) s = (mkResponse 201 (TaskBody t), s'))).
Proof.
  intros Hwf%reachable_wf.
  split; [|split; [|split]].
  - intros b p Hv Hsp%strip_empty. split.
    + cbn [app]. rewrite Hv. unfold respond. rewrite create_task_eq. cbv zeta.
      by rewrite Hsp.
    + intros id [t Ht]. cbn [app].
      rewrite (path_id_of_stored s id t), Hv by done.
      unfold respond. rewrite update_task_eq, Ht. cbv zeta.
      by rewrite Hsp.
  - intros b p ti id Hv Hset Hti Hsp%strip_empty [t Ht]. cbn [app].
    rewrite (path_id_of_stored s id t), Hv by done.
    unfold respond. rewrite patch_task_eq, Ht. cbv zeta.
    unfold TaskPatch_model_dump_exclude_unset. simpl.
    by rewrite Hset, Hti, Hsp.
  - intros b p Hv Hsp. cbv zeta.
    split; [by apply create_task_ok|].
    rewrite (app_create s b p) by done. cbv zeta. split; [done|].
    by intros ->.
  - intros de st. cbv zeta.
    assert (Hv : TaskBase.validate
                   (task_json (lit "  valid  ") de (TaskStatus_value st))
                 = Some (TaskBase.mk (lit "  valid  ") de st))
      by by rewrite validate_task_json.
    split; [done|]. split; [by apply create_task_ok|].
    rewrite (app_create s _ _ Hwf Hv) by done.
    cbv zeta. split; [done|]. simpl. by intros ->.
Qed.

Lemma C7_whitespace_only_title_witness :
  app (POST_tasks (obj3 "   " "x" "pending")) initial
  = (mkResponse 400 (Detail "title must not be empty"), initial)
  ∧ app (POST_tasks (obj3 "  valid  " "x" "pending")) initial
    = (mkResponse 201 (TaskBody (Task.mk 1 (lit "  valid  ") (lit "x") pending)),
       mkState (<[1 := Task.mk 1 (lit "  valid  ") (lit "x") pending]> ∅) 2).
Proof.
  assert (Hinit : reachable initial) by (exists []; reflexivity).
  destruct (C7_whitespace_only_title initial Hinit)
    as (Hblank & _ & _ & Hvalid).
  split.
  - apply (Hblank (obj3 "   " "x" "pending")
                  (TaskBase.mk (lit "   ") (lit "x") pending));
      reflexivity.
  - apply (Hvalid (lit "x") pending). reflexivity.
Defined.

(** ** Patch *)

Lemma validate_patch_null_description :
  TaskPatch.validate (JObject [(lit "description", JNull)]) =
  Some (TaskPatch.mk None None None false true false).
Proof. reflexivity. Qed.

Lemma patch_task_patchable s id t p :
  wf s → _TASKS s !! id = Some t → patchable p →
  patch_task p id s
  = (Return (patched p t), with_tasks s (<[id := patched p t]> (_TASKS s))).
Proof.
  intros Hwf Ht (Hti & Hde & Hst).
  pose proof (wf_bound _ Hwf _ _ Ht) as Hb.
  pose proof (wf_key _ Hwf _ _ Ht) as Hk.
  destruct (wf_title _ Hwf _ _ Ht) as [Hlen Hstrip].
  rewrite patch_task_eq, Ht. cbv zeta.
  destruct p as [ti de st bt bd bs], t as [i eti ede est]. simpl in *.
  unfold TaskPatch_model_dump_exclude_unset, Task.init, Data.update, patched.
  simpl.
  assert (Hi : (1 <=? i) = true) by (apply Z.leb_le; lia).
  assert (He : (1 <=? len eti) = true) by (by apply Z.leb_le).
  destruct bt.
  - destruct Hti as (ti' & -> & Hsp); [done|].
    apply strip_nonempty in Hsp. rewrite Hsp. simpl.
    apply strip_nonempty_len, Z.leb_le in Hsp.
    destruct bd, bs;
      repeat match goal with
             | H : true = true → is_Some ?o |- _ =>
                 destruct H as [? ->]; [done|]
             end; simpl; rewrite Hi, Hsp; done.
  - simpl.
    destruct bd, bs;
      repeat match goal with
             | H : true = true → is_Some ?o |- _ =>
                 destruct H as [? ->]; [done|]
             end; simpl; rewrite Hi, He; done.
Qed.

(** C3. For a task stored under [id] in a reachable store, a patch with
    only a description validates, and the handler returns and stores the
    task with the same id, title and status and the new description (the
    request is answered 200 with that task when the description can be
    rendered). In general a patch that returns a task has overwritten
    exactly the fields its payload sets, kept the others, and replaced only
    the entry of [id]; and it does return whenever the fields it sets hold
    values and a set title is not blank. *)
Theorem C3_patch_overwrites_supplied_fields (s : state) (id : Z) (t : Task.t) :
  reachable s → _TASKS s !! id = Some t →
  (∀ x, let t' := Task.mk id (Task.title t) x (Task.status t) in
        let s' := with_tasks s (<[id := t']> (_TASKS s)) in
        let b := JObject [(lit "description", JString x)] in
        ∃ p, TaskPatch.validate b = Some p
             ∧ patch_task p id s = (Return t', s')
             ∧ (app (PATCH_task id b) s).2 = s'
             ∧ (utf8_encodable x = true →
                (app (PATCH_task id b) s).1 = mkResponse 200 (TaskBody t')))
  ∧ (∀ p u s', patch_task p id s = (Return u, s') →
       s' = with_tasks s (<[id := u]> (_TASKS s))
       ∧ Task.id u = id
       ∧ (if TaskPatch.title_set p
          then TaskPatch.title p = Some (Task.title u)
          else Task.title u = Task.title t)
       ∧ (if TaskPatch.description_set p
          then TaskPatch.description p = Some (Task.description u)
          else Task.description u = Task.description t)
       ∧ (if TaskPatch.status_set p
          then TaskPatch.status p = Some (Task.status u)
          else Task.status u = Task.status t))
  ∧ (∀ p, patchable p →
       patch_task p id s
       = (Return (patched p t),
          with_tasks s (<[id := patched p t]> (_TASKS s)))).
Proof.
  intros Hr Ht. pose proof (reachable_wf _ Hr) as Hwf.
  pose proof (wf_key _ Hwf _ _ Ht) as Hk.
  split; [|split].
  - intros x. cbv zeta.
    exists (TaskPatch.mk None (Some x) None false true false).
    assert (Hp : patch_task (TaskPatch.mk None (Some x) None false true false)
                   id s
                 = (Return (Task.mk id (Task.title t) x (Task.status t)),
                    with_tasks s
                      (<[id := Task.mk id (Task.title t) x (Task.status t)]>
                         (_TASKS s)))).
    { rewrite (patch_task_patchable s id t) by
        (try done; repeat split; simpl; try done; eauto).
      unfold patched. simpl. by rewrite Hk. }
    split; [apply validate_patch_description|]. split; [exact Hp|].
    cbn [app].
    rewrite (path_id_of_stored s id t), validate_patch_description by done.
    rewrite (respond_return _ _ _ _ _ _ Hp). split; [done|].
    intros Hx. cbn [fst content_encodable]. unfold task_encodable. simpl.
    by rewrite (reachable_title s id t Hr Ht), Hx.
  - intros p u s'. rewrite patch_task_eq, Ht. cbv zeta.
    match goal with |- context [if ?c then _ else _] => destruct c end;
      [discriminate|].
    destruct (Task.init _) as [u'|] eqn:Hi; [|discriminate].
    intros [= -> <-].
    apply patch_init_Some in Hi as (Hid & Hti & Hde & Hst & _).
    repeat split; try done. congruence.
  - intros p Hp. by apply patch_task_patchable.
Qed.

Lemma C3_patch_overwrites_supplied_fields_witness :
  let s := (serve [POST_tasks (obj3 "Buy milk" "2%" "pending")] initial).2 in
  (app (PATCH_task 1 (JObject [(lit "description", JString (lit "x"))])) s).1
  = mkResponse 200 (TaskBody (Task.mk 1 (lit "Buy milk") (lit "x") pending))
  ∧ (app (PATCH_task 1 (JObject [(lit "description", JString (lit "x"))])) s).2
    = with_tasks s (<[1 := Task.mk 1 (lit "Buy milk") (lit "x") pending]>
                      (_TASKS s)).
Proof.
  cbv zeta.
  set (rs := [POST_tasks (obj3 "Buy milk" "2%" "pending")]).
  assert (Hr : reachable (serve rs initial).2) by (exists rs; reflexivity).
  assert (Ht : _TASKS (serve rs initial).2 !! 1
               = Some (Task.mk 1 (lit "Buy milk") (lit "2%") pending))
    by (vm_compute; reflexivity).
  destruct (C3_patch_overwrites_supplied_fields _ 1 _ Hr Ht) as (Hd & _).
  destruct (Hd (lit "x")) as (p & _ & _ & Hst & Hresp).
  split; [apply Hresp; reflexivity|exact Hst].
Defined.

(** C10. [PATCH] on a stored task with the body [{"description": null}]:
    the body validates, the title guard lets it pass, [None] is merged over
    the stored description, and constructing the [Task] raises pydantic's
    [ValidationError] inside the handler. The request is answered 500, not
    400 or 404, and the store is unchanged. *)
Theorem C10_patch_null_raises (s : state) (id : Z) (t : Task.t) :
  1 ≤ id → _TASKS s !! id = Some t →
  let b := JObject [(lit "description", JNull)] in
  ∃ p, TaskPatch.validate b = Some p
       ∧ Data.description
           (Data.update (Task.model_dump t)
                        (TaskPatch_model_dump_exclude_unset p)) = Some None
       ∧ patch_task p id s = (Raise ValidationError, s)
       ∧ app (PATCH_task id b) s = (mkResponse 500 InternalServerError, s).
Proof.
  intros Hid Ht b. eexists. split; [reflexivity|].
  assert (Hp : patch_task (TaskPatch.mk None None None false true false) id s
               = (Raise ValidationError, s)).
  { rewrite patch_task_eq, Ht. reflexivity. }
  split; [reflexivity|]. split; [exact Hp|].
  subst b. cbn [app].
  rewrite path_id_ok, validate_patch_null_description by done.
  unfold respond. by rewrite Hp.
Qed.

Lemma C10_patch_null_raises_witness :
  let s := (serve [POST_tasks (obj3 "Buy milk" "2%" "pending")] initial).2 in
  app (PATCH_task 1 (JObject [(lit "description", JNull)])) s
  = (mkResponse 500 InternalServerError, s).
Proof.
  cbv zeta.
  set (rs := [POST_tasks (obj3 "Buy milk" "2%" "pending")]).
  assert (Ht : _TASKS (serve rs initial).2 !! 1
               = Some (Task.mk 1 (lit "Buy milk") (lit "2%") pending))
    by (vm_compute; reflexivity).
  destruct (C10_patch_null_raises _ 1 _ ltac:(lia) Ht) as (p & _ & _ & _ & H).
  exact H.
Defined.

(** ** Replace and lookup *)

(** C4. For an id stored in a reachable store and a body that validates
    with a title that is not blank, replace overwrites title, description
    and status, keeps the id and touches no other entry, and a following get
    of the id returns exactly the replaced task. When the description can be
    rendered the two requests are answered 200 with that task. *)
Theorem C4_replace_then_get (s : state) (id : Z) (t : Task.t)
        (b : json) (p : TaskUpdate) :
  reachable s → _TASKS s !! id = Some t →
  TaskBase.validate b = Some p →
  forallb is_space (TaskBase.title p) = false →
  let t' := Task.mk id (TaskBase.title p) (TaskBase.description p)
                    (TaskBase.status p) in
  let s' := with_tasks s (<[id := t']> (_TASKS s)) in
  update_task p id s = (Return t', s')
  ∧ get_task id s' = (Return t', s')
  ∧ (app (PUT_task id b) s).2 = s'
  ∧ (utf8_encodable (TaskBase.description p) = true →
     app (PUT_task id b) s = (mkResponse 200 (TaskBody t'), s')
     ∧ app (GET_task id) s' = (mkResponse 200 (TaskBody t'), s')).
Proof.
  intros Hwf%reachable_wf Ht Hv Hsp. cbv zeta.
  pose proof (wf_bound _ Hwf _ _ Ht) as Hb.
  assert (Hid : 1 ≤ id) by lia.
  split; [by eapply update_task_ok|].
  split.
  { unfold get_task. rewrite _get_task_or_404_eq. simpl.
    by rewrite lookup_insert_eq. }
  rewrite (app_update s id t b p) by done. cbv zeta.
  split; [done|]. intros Hde. rewrite Hde. split; [done|].
  erewrite app_get; [|done|by simpl; rewrite lookup_insert_eq].
  unfold task_encodable. simpl.
  by rewrite (validate_base_utf8 _ _ Hv), Hde.
Qed.

Lemma C4_replace_then_get_witness :
  let s := (serve [POST_tasks (obj3 "Buy milk" "2%" "pending")] initial).2 in
  let t' := Task.mk 1 (lit "Buy bread") (lit "") completed in
  let s' := with_tasks s (<[1 := t']> (_TASKS s)) in
  app (PUT_task 1 (obj3 "Buy bread" "" "completed")) s
  = (mkResponse 200 (TaskBody t'), s')
  ∧ app (GET_task 1) s' = (mkResponse 200 (TaskBody t'), s').
Proof.
  cbv zeta.
  set (rs := [POST_tasks (obj3 "Buy milk" "2%" "pending")]).
  assert (Hr : reachable (serve rs initial).2) by (exists rs; reflexivity).
  assert (Ht : _TASKS (serve rs initial).2 !! 1
               = Some (Task.mk 1 (lit "Buy milk") (lit "2%") pending))
    by (vm_compute; reflexivity).
  destruct (C4_replace_then_get _ 1 _ (obj3 "Buy bread" "" "completed")
              (TaskBase.mk (lit "Buy bread") (lit "") completed) Hr Ht
              eq_refl eq_refl) as (_ & _ & _ & H).
  apply H. reflexivity.
Defined.

(** C5. Each of get, replace, patch and delete raises 404 exactly when the
    id is not a key of the store, whatever the payload. After [delete_task]
    the id is absent, so a following get raises 404; a delete of a stored id
    returns and removes that key only. At the request level, for a path id
    of at least 1 and a body that validates, the answer is 404 exactly when
    the id is absent. *)
Theorem C5_not_found_iff_absent (s : state) (id : Z) :
  ((get_task id s).1 = not_found ↔ _TASKS s !! id = None)
  ∧ (∀ p, (update_task p id s).1 = not_found ↔ _TASKS s !! id = None)
  ∧ (∀ p, (patch_task p id s).1 = not_found ↔ _TASKS s !! id = None)
  ∧ ((delete_task id s).1 = not_found ↔ _TASKS s !! id = None)
  ∧ (get_task id (delete_task id s).2).1 = not_found
  ∧ (is_Some (_TASKS s !! id) →
     delete_task id s = (Return tt, with_tasks s (delete id (_TASKS s))))
  ∧ (1 ≤ id →
     (status_code (app (GET_task id) s).1 = 404 ↔ _TASKS s !! id = None)
     ∧ (∀ b, is_Some (TaskBase.validate b) →
          status_code (app (PUT_task id b) s).1 = 404
          ↔ _TASKS s !! id = None)
     ∧ (∀ b, is_Some (TaskPatch.validate b) →
          status_code (app (PATCH_task id b) s).1 = 404
          ↔ _TASKS s !! id = None)
     ∧ (status_code (app (DELETE_task id) s).1 = 404
        ↔ _TASKS s !! id = None)
     ∧ status_code (app (GET_task id) (app (DELETE_task id) s).2).1 = 404).
Proof.
  assert (Hget : ∀ s0, (get_task id s0).1 = not_found ↔ _TASKS s0 !! id = None).
  { intros s0. unfold get_task. rewrite _get_task_or_404_eq.
    destruct (_TASKS s0 !! id); simpl; split; done. }
  assert (Hdel : _TASKS (delete_task id s).2 !! id = None).
  { rewrite delete_task_eq. destruct (_TASKS s !! id) eqn:E; simpl; [|done].
    apply lookup_delete_eq. }
  split; [apply Hget|]. split; [|split; [|split; [|split; [|split]]]].
  - intros p. rewrite update_task_eq. cbv zeta.
    destruct (_TASKS s !! id); [|done].
    destruct (is_empty _); [done|]. by destruct (_ && _).
  - intros p. rewrite patch_task_eq. cbv zeta.
    destruct (_TASKS s !! id); [|done].
    match goal with |- context [if ?c then _ else _] => destruct c end;
      [done|].
    by destruct (Task.init _).
  - rewrite delete_task_eq. by destruct (_TASKS s !! id).
  - by apply Hget.
  - intros [t Ht]. by rewrite delete_task_eq, Ht.
  - intros Hid.
    assert (Hpath : validate_path_id id = Some id).
    { unfold validate_path_id. destruct (Z.leb_spec 1 id); [done|lia]. }
    split; [|split; [|split; [|split]]].
    + cbn [app]. rewrite Hpath. unfold respond, get_task.
      rewrite _get_task_or_404_eq.
      destruct (_TASKS s !! id); [|done]. by destruct (content_encodable _).
    + intros b [p Hv]. cbn [app]. rewrite Hpath, Hv. unfold respond.
      rewrite update_task_eq. cbv zeta.
      destruct (_TASKS s !! id); [|done].
      destruct (is_empty _); [done|].
      destruct (_ && _); [|done]. by destruct (content_encodable _).
    + intros b [p Hv]. cbn [app]. rewrite Hpath, Hv. unfold respond.
      rewrite patch_task_eq. cbv zeta.
      destruct (_TASKS s !! id); [|done].
      match goal with |- context [if ?c then _ else _] => destruct c end;
        [done|].
      destruct (Task.init _); [|done]. by destruct (content_encodable _).
    + cbn [app]. rewrite Hpath. unfold respond.
      rewrite delete_task_eq. by destruct (_TASKS s !! id).
    + cbn [app]. rewrite Hpath, !respond_state.
      unfold respond, get_task. rewrite _get_task_or_404_eq, Hdel. done.
Qed.

Lemma C5_not_found_iff_absent_witness :
  let s := (serve [POST_tasks (obj3 "Buy milk" "2%" "pending")] initial).2 in
  delete_task 1 s = (Return tt, with_tasks s (delete 1 (_TASKS s)))
  ∧ status_code (app (GET_task 1) (app (DELETE_task 1) s).2).1 = 404.
Proof.
  cbv zeta.
  set (rs := [POST_tasks (obj3 "Buy milk" "2%" "pending")]).
  destruct (C5_not_found_iff_absent (serve rs initial).2 1)
    as (_ & _ & _ & _ & _ & Hdel & Hhttp).
  split.
  - apply Hdel. vm_compute. eexists. reflexivity.
  - apply Hhttp. lia.
Defined.

(** ** Sorting by key *)

Section Sorting.
Context {A : Type} (key : A → Z).

Lemma insert_by_perm x l : insert_by key x l ≡ₚ x :: l.
Proof.
  induction l as [|y l IH]; simpl; [done|].
  destruct (key x <=? key y); [done|].
  rewrite IH. apply Permutation_swap.
Qed.

Lemma sorted_perm l : sorted key l ≡ₚ l.
Proof.
  induction l as [|x l IH]; simpl; [done|].
  by rewrite insert_by_perm, IH.
Qed.

Lemma insert_by_sorted x l :
  StronglySorted (key_le key) l → StronglySorted (key_le key) (insert_by key x l).
Proof.
  induction 1 as [|y l Hs IH Hall]; simpl.
  - repeat constructor.
  - destruct (Z.leb_spec (key x) (key y)) as [Hle|Hgt].
    + constructor; [by constructor|].
      constructor; [done|].
      eapply Forall_impl; [exact Hall|]. unfold key_le. simpl. lia.
    + constructor; [done|].
      rewrite insert_by_perm. constructor; [|done]. unfold key_le. lia.
Qed.

Lemma sorted_StronglySorted l : StronglySorted (key_le key) (sorted key l).
Proof.
  induction l as [|x l IH]; simpl; [constructor|].
  by apply insert_by_sorted.
Qed.

Lemma sorted_le_strict l :
  StronglySorted (key_le key) l → NoDup (key <$> l) →
  StronglySorted Z.lt (key <$> l).
Proof.
  induction 1 as [|x l Hs IH Hall]; simpl; [constructor|].
  rewrite NoDup_cons. intros [Hx Hnd].
  constructor; [by apply IH|].
  rewrite Forall_fmap. rewrite Forall_forall in Hall |- *.
  intros y Hy. simpl.
  assert (key x ≠ key y).
  { intros E. apply Hx. rewrite E. apply list_elem_of_fmap. eauto. }
  specialize (Hall y Hy). unfold key_le in Hall. lia.
Qed.

Lemma key_inj_on l x1 x2 :
  NoDup (key <$> l) → x1 ∈ l → x2 ∈ l → key x1 = key x2 → x1 = x2.
Proof.
  induction l as [|y l IH]; simpl; [by inversion 2|].
  rewrite NoDup_cons. intros [Hy Hnd] H1 H2 E.
  apply elem_of_cons in H1 as [->|H1], H2 as [->|H2]; try done.
  - exfalso. apply Hy. rewrite E. apply list_elem_of_fmap. eauto.
  - exfalso. apply Hy. rewrite <- E. apply list_elem_of_fmap. eauto.
  - by apply IH.
Qed.

(** With distinct keys the result does not depend on the order in which
    the elements are enumerated. *)
Lemma sorted_order_irrelevant l1 l2 :
  l1 ≡ₚ l2 → NoDup (key <$> l1) → sorted key l1 = sorted key l2.
Proof.
  intros Hp Hnd.
  apply (StronglySorted_unique_strong (key_le key));
    [|apply sorted_StronglySorted..|by rewrite !sorted_perm].
  intros x1 x2 Hx1 Hx2 H12 H21. unfold key_le in *.
  rewrite sorted_perm in Hx1. rewrite sorted_perm, <- Hp in Hx2.
  apply (key_inj_on l1); [done..|lia].
Qed.
End Sorting.

(** ** Listing *)

Lemma elem_of_values (d : gmap Z Task.t) t :
  t ∈ values d ↔ ∃ k, d !! k = Some t.
Proof.
  unfold values. rewrite list_elem_of_fmap. split.
  - intros [[k t'] [-> H%elem_of_map_to_list]]. by exists k.
  - intros [k H]. exists (k, t). by rewrite elem_of_map_to_list.
Qed.

Lemma wf_value_ids s :
  wf s → Task.id <$> values (_TASKS s) = (map_to_list (_TASKS s)).*1.
Proof.
  intros Hwf. unfold values. rewrite <- list_fmap_compose.
  apply list_fmap_ext. intros n [k t] H%list_elem_of_lookup_2%elem_of_map_to_list.
  simpl. by apply (wf_key _ Hwf).
Qed.

Lemma wf_value_ids_NoDup s : wf s → NoDup (Task.id <$> values (_TASKS s)).
Proof. intros Hwf. rewrite wf_value_ids by done. apply NoDup_fst_map_to_list. Qed.

Lemma list_tasks_any_enumeration s (l : list Task.t) :
  wf s → l ≡ₚ values (_TASKS s) →
  sorted Task.id l = sorted Task.id (values (_TASKS s)).
Proof.
  intros Hwf Hl. apply sorted_order_irrelevant; [done|].
  rewrite Hl. by apply wf_value_ids_NoDup.
Qed.

Lemma wf_listed_ids s i :
  wf s →
  i ∈ Task.id <$> sorted Task.id (values (_TASKS s)) ↔ is_Some (_TASKS s !! i).
Proof.
  intros Hwf. rewrite sorted_perm, list_elem_of_fmap. split.
  - intros (t & -> & [k Hk]%elem_of_values).
    rewrite (wf_key _ Hwf _ _ Hk). eauto.
  - intros [t Ht]. exists t. split; [by rewrite (wf_key _ Hwf _ _ Ht)|].
    apply elem_of_values. eauto.
Qed.

(** One request issues no id and leaves the counter alone, or issues
    exactly the counter's value and advances it by one. *)
Lemma app_issued r s :
  (issued_id r s = None ∧ _NEXT_ID (app r s).2 = _NEXT_ID s)
  ∨ (issued_id r s = Some (_NEXT_ID s)
     ∧ _NEXT_ID (app r s).2 = _NEXT_ID s + 1).
Proof.
  destruct r as [| |b|id|id b|id b|id]; cbn [issued_id]; app_cases;
    solve [ left; split; reflexivity | right; split; reflexivity ].
Qed.

Lemma serve_issued rs s :
  StronglySorted Z.lt (ids_issued rs s)
  ∧ Forall (λ i, _NEXT_ID s ≤ i < _NEXT_ID (serve rs s).2) (ids_issued rs s)
  ∧ _NEXT_ID s ≤ _NEXT_ID (serve rs s).2.
Proof.
  revert s. induction rs as [|r rs IH]; intros s.
  - simpl. repeat split; [constructor|constructor|lia].
  - rewrite serve_cons. cbn [ids_issued snd].
    destruct (IH (app r s).2) as (Hs & Hb & Hn).
    destruct (app_issued r s) as [[-> E]|[-> E]]; rewrite E in *.
    + done.
    + repeat split; [|constructor|lia].
      * constructor; [done|].
        eapply Forall_impl; [exact Hb|]. simpl. lia.
      * lia.
      * eapply Forall_impl; [exact Hb|]. simpl. lia.
Qed.

(** A request adds at most the key it issues and removes at most the key
    it deletes. *)
Lemma app_keys_all r s i :
  is_Some (_TASKS (app r s).2 !! i)
  ↔ (is_Some (_TASKS s !! i) ∨ issued_id r s = Some i)
    ∧ deleted_id r (app r s).1 ≠ Some i.
Proof.
  assert (Hsame : ∀ d, d ≠ Some i →
            is_Some (_TASKS s !! i)
            ↔ (is_Some (_TASKS s !! i) ∨ @None Z = Some i) ∧ d ≠ Some i).
  { intros d Hd. split; [intros ?; split; [by left|done]|].
    by intros [[?|?] _]. }
  assert (Hupd : ∀ j t u, _TASKS s !! j = Some t →
            is_Some (<[j := u]> (_TASKS s) !! i)
            ↔ (is_Some (_TASKS s !! i) ∨ @None Z = Some i)
              ∧ @None Z ≠ Some i).
  { intros j t u Hj. rewrite lookup_insert. case_decide.
    - subst j. rewrite Hj. split; [intros _; split; [left; eauto|done]|eauto].
    - split; [intros ?; split; [by left|done]|]. by intros [[?|?] _]. }
  assert (Hnew : ∀ u, is_Some (<[_NEXT_ID s := u]> (_TASKS s) !! i)
            ↔ (is_Some (_TASKS s !! i) ∨ Some (_NEXT_ID s) = Some i)
              ∧ @None Z ≠ Some i).
  { intros u. rewrite lookup_insert. case_decide.
    - subst i. split; [intros _; split; [by right|done]|eauto].
    - split; [intros ?; split; [by left|done]|].
      intros [[?|?] _]; [done|congruence]. }
  assert (Hdel : ∀ j, is_Some (delete j (_TASKS s) !! i)
            ↔ (is_Some (_TASKS s !! i) ∨ @None Z = Some i)
              ∧ Some j ≠ Some i).
  { intros j. rewrite lookup_delete. case_decide.
    - subst i. split; [by intros [? ?]|]. intros [_ H]. by destruct H.
    - split; [intros ?; split; [by left|congruence]|]. by intros [[?|?] _]. }
  destruct r as [| |b|id|id b|id b|id]; cbn [issued_id deleted_id];
    app_cases;
    cbn [fst snd status_code Z.eqb Pos.eqb _TASKS with_tasks Task.id];
    unfold with_tasks; cbn [_TASKS];
    first [ by apply Hsame | by eapply Hupd | by apply Hnew | by apply Hdel
          | idtac ].
  all: repeat match goal with
              | H : validate_path_id _ = Some _ |- _ =>
                  apply path_id_inv in H as [-> _]
              end.
  all: first [ by apply Hdel | by apply Hsame
             | exfalso;
               match goal with
               | H : (_ =? _) = false |- _ => by cbn in H
               end ].
Qed.

Lemma app_deleted_stored r s i :
  deleted_id r (app r s).1 = Some i → is_Some (_TASKS s !! i).
Proof.
  destruct r as [| |b|id|id b|id b|id]; try discriminate.
  cbn [app deleted_id].
  destruct (validate_path_id id) as [j|] eqn:Hj; [|discriminate].
  apply path_id_inv in Hj as [-> _].
  unfold respond. rewrite delete_task_eq.
  destruct (_TASKS s !! id) as [t|] eqn:Ht; simpl; [|discriminate].
  intros [= <-]. rewrite Ht. eauto.
Qed.

Lemma ids_deleted_cons r rs resp resps :
  ids_deleted (r :: rs) (resp :: resps)
  = match deleted_id r resp with
    | Some j => j :: ids_deleted rs resps
    | None => ids_deleted rs resps
    end.
Proof. reflexivity. Qed.

Lemma serve_keys_all rs s i :
  wf s →
  is_Some (_TASKS (serve rs s).2 !! i)
  ↔ (is_Some (_TASKS s !! i) ∨ i ∈ ids_issued rs s)
    ∧ i ∉ ids_deleted rs (serve rs s).1.
Proof.
  revert s. induction rs as [|r rs IH]; intros s Hwf.
  - simpl. unfold ids_deleted. simpl. rewrite !elem_of_nil.
    split; [intros ?; split; [by left|tauto]|]. by intros [[?|?] _].
  - rewrite serve_cons. cbn [fst snd ids_issued].
    pose proof (app_wf r s Hwf) as Hwf1.
    rewrite ids_deleted_cons, (IH _ Hwf1), (app_keys_all r s i).
    destruct (serve_issued rs (app r s).2) as (_ & Hb & _).
    rewrite Forall_forall in Hb.
    pose proof (app_deleted_stored r s i) as Hdel.
    destruct (app_issued r s) as [[Hc E]|[Hc E]]; rewrite Hc.
    + destruct (deleted_id r (app r s).1) as [j|] eqn:Hd.
      * rewrite elem_of_cons. split.
        -- intros [[[[?|?] Hj]|Hin] Hnd]; try done.
           ++ split; [by left|]. intros [->|?]; done.
           ++ split; [by right|]. intros [->|?]; [|done].
              destruct Hdel as [t Ht]; [done|].
              apply (wf_bound _ Hwf) in Ht. apply Hb in Hin. lia.
        -- intros [[?|?] Hnd]; split; try tauto.
           left. split; [by left|]. intros [= ->]. tauto.
      * split.
        -- intros [[[[?|?] _]|?] ?]; try done; split; auto.
        -- intros [[?|?] ?]; split; auto.
    + assert (deleted_id r (app r s).1 = None) as Hd.
      { by destruct r. }
      rewrite Hd, elem_of_cons. split.
      * intros [[[[?|[= ->]] _]|?] ?]; split; auto.
      * intros [[?|[->|?]] ?]; split; auto.
Qed.

Lemma ids_deleted_no_delete rs resps :
  Forall (λ r, is_delete r = false) rs → ids_deleted rs resps = [].
Proof.
  intros Hrs. revert resps.
  induction Hrs as [|r rs Hr _ IH]; intros [|resp resps]; try done.
  rewrite ids_deleted_cons, IH. by destruct r.
Qed.

Lemma strictly_sorted_ext (l1 l2 : list Z) :
  StronglySorted Z.lt l1 → StronglySorted Z.lt l2 →
  (∀ i, i ∈ l1 ↔ i ∈ l2) → l1 = l2.
Proof.
  intros H1 H2 Hext.
  assert (Hnd : ∀ l, StronglySorted Z.lt l → NoDup l).
  { induction 1 as [|i l _ IH Hall]; constructor; [|done].
    intros Hin. rewrite Forall_forall in Hall. apply Hall in Hin. lia. }
  apply (StronglySorted_unique_strong Z.lt); try done.
  - intros; lia.
  - apply NoDup_Permutation; auto.
Qed.

Lemma app_list s :
  app GET_tasks s = (list_response (sorted Task.id (values (_TASKS s))), s).
Proof. reflexivity. Qed.

(** C6. The list handler always returns, leaving the store alone: the list
    holds exactly the stored tasks, ordered by ascending id (empty for an
    empty store); the request is answered 200 with it whenever every listed
    task can be rendered. In a store reached from the empty one the ids
    listed are strictly ascending, and if no delete was served they are
    exactly the ids the creates issued, in order: N creates, N tasks. *)
Theorem C6_list_tasks_ascending (s : state) :
  let l := sorted Task.id (values (_TASKS s)) in
  list_tasks s = (Return l, s)
  ∧ app GET_tasks s = (list_response l, s)
  ∧ l ≡ₚ values (_TASKS s)
  ∧ (∀ t, t ∈ l ↔ ∃ k, _TASKS s !! k = Some t)
  ∧ length l = size (_TASKS s)
  ∧ StronglySorted (λ a b, Task.id a ≤ Task.id b) l
  ∧ (_TASKS s = ∅ → l = [])
  ∧ (∀ rs, (serve rs initial).2 = s →
       StronglySorted Z.lt (Task.id <$> l)
       ∧ (Forall (λ r, is_delete r = false) rs →
          Task.id <$> l = ids_issued rs initial
          ∧ length l = length (ids_issued rs initial))).
Proof.
  cbv zeta. split; [done|]. split; [done|]. split; [apply sorted_perm|].
  split; [intros t; by rewrite sorted_perm, elem_of_values|].
  split.
  { rewrite sorted_perm. unfold values.
    by rewrite length_fmap, length_map_to_list. }
  split; [apply (sorted_StronglySorted Task.id)|].
  split; [by intros ->|].
  intros rs Hs.
  assert (Hwf : wf s) by (apply reachable_wf; by exists rs).
  assert (Hlt : StronglySorted Z.lt
                  (Task.id <$> sorted Task.id (values (_TASKS s)))).
  { apply sorted_le_strict; [apply sorted_StronglySorted|].
    rewrite sorted_perm. by apply wf_value_ids_NoDup. }
  split; [done|]. intros Hrs.
  assert (E : Task.id <$> sorted Task.id (values (_TASKS s))
              = ids_issued rs initial).
  { apply strictly_sorted_ext; [done|apply serve_issued|].
    intros i. rewrite wf_listed_ids by done.
    rewrite <- Hs, (serve_keys_all rs initial i wf_initial).
    rewrite (ids_deleted_no_delete rs _ Hrs). simpl.
    rewrite lookup_empty, elem_of_nil.
    split; [intros [[[? [=]]|?] _]; done|]. intros ?. split; [by right|tauto]. }
  split; [done|]. by rewrite <- E, length_fmap.
Qed.

Lemma C6_list_tasks_ascending_witness :
  let rs := [POST_tasks (obj3 "a" "" "pending");
             POST_tasks (obj3 " " "" "pending");
             PUT_task 1 (obj3 "b" "" "completed");
             POST_tasks (obj3 "c" "" "pending")] in
  Task.id <$> sorted Task.id (values (_TASKS (serve rs initial).2)) = [1; 2]
  ∧ length (sorted Task.id (values (_TASKS (serve rs initial).2))) = 2%nat.
Proof.
  cbv zeta.
  set (rs := [POST_tasks (obj3 "a" "" "pending");
              POST_tasks (obj3 " " "" "pending");
              PUT_task 1 (obj3 "b" "" "completed");
              POST_tasks (obj3 "c" "" "pending")]).
  destruct (C6_list_tasks_ascending (serve rs initial).2)
    as (_ & _ & _ & _ & _ & _ & _ & H).
  destruct (H rs eq_refl) as [_ Hnd].
  assert (Hrs : Forall (λ r, is_delete r = false) rs)
    by (repeat constructor).
  destruct (Hnd Hrs) as [-> ->].
  split; vm_compute; reflexivity.
Defined.

(** ** Stored and returned tasks are valid *)

Lemma wf_stored_valid s k t : wf s → _TASKS s !! k = Some t → valid_task t.
Proof.
  intros Hwf Ht.
  pose proof (wf_key _ Hwf _ _ Ht) as Hk.
  pose proof (wf_bound _ Hwf _ _ Ht) as Hb.
  destruct (wf_title _ Hwf _ _ Ht) as [Hlen Hstrip].
  unfold valid_task. rewrite Hk.
  split; [lia|]. split; [done|]. split; [done|].
  split; [destruct (Task.status t); auto|].
  destruct t as [i ti de st]. unfold Task.init. simpl in *. subst i.
  destruct (Z.leb_spec 1 k); [|lia].
  destruct (Z.leb_spec 1 (len ti)); [done|lia].
Qed.

Lemma app_response_valid r s :
  wf s → Forall valid_task (response_tasks (app r s).1).
Proof.
  intros Hwf.
  assert (Hstored : ∀ (s' : state) j u,
            wf s' → _TASKS s' !! j = Some u → Forall valid_task [u]).
  { intros s' j u Hwf' Hu. constructor; [|constructor].
    by eapply wf_stored_valid. }
  pose proof (app_wf r s Hwf) as Hwf'. revert Hwf'.
  destruct r as [| |b|id|id b|id b|id]; app_cases; cbn [fst snd];
    intros Hwf'; unfold response_tasks; cbn [body];
    first [ by constructor
          | by (eapply Hstored; [exact Hwf'|simpl; apply lookup_insert_eq])
          | by (eapply Hstored; [exact Hwf|eassumption])
          | idtac ].
  apply Forall_forall. intros t.
  rewrite sorted_perm, elem_of_values. intros [k Hk].
  by eapply wf_stored_valid.
Qed.

Lemma serve_responses_valid rs s :
  wf s → Forall (λ resp, Forall valid_task (response_tasks resp))
                (serve rs s).1.
Proof.
  revert s. induction rs as [|r rs IH]; intros s Hwf; [constructor|].
  rewrite serve_cons. simpl. constructor.
  - by apply app_response_valid.
  - by apply IH, app_wf.
Qed.

(** C9. In every store reached from the empty one by any requests: each
    entry's task carries its key as id, the id is at least 1, the title has
    a character left after stripping, the status is one of the two values
    and the task passes the [Task] model's own validation; the ids of the
    stored tasks are pairwise distinct; and every task shown in a response
    along the way is valid in the same sense. *)
Theorem C9_reachable_store_valid (rs : list request) :
  let s := (serve rs initial).2 in
  (∀ k t, _TASKS s !! k = Some t → Task.id t = k ∧ valid_task t)
  ∧ NoDup (Task.id <$> values (_TASKS s))
  ∧ Forall (λ resp, Forall valid_task (response_tasks resp))
           (serve rs initial).1.
Proof.
  cbv zeta.
  assert (Hwf : wf (serve rs initial).2) by apply serve_wf, wf_initial.
  split; [|split].
  - intros k t Ht. split; [by apply (wf_key _ Hwf)|by eapply wf_stored_valid].
  - by apply wf_value_ids_NoDup.
  - apply serve_responses_valid, wf_initial.
Qed.

(** * Further properties of the handlers *)

(** ** The counter *)

Lemma serve_issued_seq rs s :
  let ids := ids_issued rs s in
  ids = seqZ (_NEXT_ID s) (Z.of_nat (length ids))
  ∧ _NEXT_ID (serve rs s).2 = _NEXT_ID s + Z.of_nat (length ids).
Proof.
  cbv zeta. revert s. induction rs as [|r rs IH]; intros s.
  - simpl. split; [done|lia].
  - rewrite serve_cons. cbn [ids_issued snd].
    destruct (IH (app r s).2) as [Hids Hn].
    destruct (app_issued r s) as [[-> E]|[-> E]]; rewrite E in *.
    + done.
    + cbn [length]. rewrite Nat2Z.inj_succ.
      split; [|lia].
      rewrite seqZ_cons by lia. rewrite Z.pred_succ. f_equal.
      exact Hids.
Qed.

(** An id announced with 201 is the id the create issued. *)
Lemma app_created_issued r s :
  created_id (app r s).1 = None ∨ created_id (app r s).1 = issued_id r s.
Proof.
  destruct r as [| |b|id|id b|id b|id]; cbn [issued_id]; app_cases;
    solve [ left; reflexivity | right; reflexivity ].
Qed.

Lemma serve_created_issued rs s :
  ids_created (serve rs s).1 `sublist_of` ids_issued rs s.
Proof.
  revert s. induction rs as [|r rs IH]; intros s; [constructor|].
  rewrite serve_cons. cbn [ids_issued fst]. unfold ids_created in *.
  simpl. specialize (IH (app r s).2).
  destruct (app_created_issued r s) as [->| ->].
  - destruct (issued_id r s); [by apply sublist_cons|done].
  - destruct (issued_id r s); [by apply sublist_skip|done].
Qed.

(** X1. Served from the empty store, the k-th create whose handler stores
    a task is given the id k: the ids issued are 1, 2, ..., n in this
    order and the counter ends at n + 1, whatever other requests come in
    between. The ids announced by 201 responses are among them, in the
    same order. *)
Theorem X1_created_ids_consecutive (rs : list request) :
  let ids := ids_issued rs initial in
  ids = seqZ 1 (Z.of_nat (length ids))
  ∧ _NEXT_ID (serve rs initial).2 = 1 + Z.of_nat (length ids)
  ∧ ids_created (serve rs initial).1 `sublist_of` ids.
Proof.
  cbv zeta. destruct (serve_issued_seq rs initial) as [H1 H2].
  split; [exact H1|]. split; [exact H2|]. apply serve_created_issued.
Qed.

(** ** Create, composed with the other routes *)

(** X2. On a reachable store, a create whose body validates with a title
    that is not blank stores the task under an id that was not a key
    before; a following get of that id returns the same task, and the entry
    of every other key is as it was. When the description can be rendered
    the create is answered 201 and the get 200, both with that task. *)
Theorem X2_create_then_get (s : state) (b : json) (p : TaskCreate) :
  reachable s → TaskBase.validate b = Some p →
  forallb is_space (TaskBase.title p) = false →
  let n := _NEXT_ID s in
  let t := Task.mk n (TaskBase.title p) (TaskBase.description p)
                   (TaskBase.status p) in
  let s' := (app (POST_tasks b) s).2 in
  _TASKS s !! n = None
  ∧ _TASKS s' !! n = Some t
  ∧ get_task n s' = (Return t, s')
  ∧ (∀ k, k ≠ n → _TASKS s' !! k = _TASKS s !! k)
  ∧ (utf8_encodable (TaskBase.description p) = true →
     (app (POST_tasks b) s).1 = mkResponse 201 (TaskBody t)
     ∧ app (GET_task n) s' = (mkResponse 200 (TaskBody t), s')).
Proof.
  intros Hwf%reachable_wf Hv Hsp. cbv zeta.
  rewrite (app_create s b p) by done. cbv zeta. cbn [fst snd _TASKS].
  split; [by apply wf_fresh|].
  split; [by rewrite lookup_insert_eq|].
  split.
  { unfold get_task. rewrite _get_task_or_404_eq. simpl.
    by rewrite lookup_insert_eq. }
  split; [intros k Hk; by rewrite lookup_insert_ne|].
  intros Hde. rewrite Hde. split; [done|].
  erewrite app_get;
    [|by destruct Hwf|by simpl; rewrite lookup_insert_eq].
  unfold task_encodable. simpl.
  by rewrite (validate_base_utf8 _ _ Hv), Hde.
Qed.

Lemma X2_create_then_get_witness :
  let b := obj3 "Buy milk" "2%" "pending" in
  let t := Task.mk 1 (lit "Buy milk") (lit "2%") pending in
  (app (POST_tasks b) initial).1 = mkResponse 201 (TaskBody t)
  ∧ (app (GET_task 1) (app (POST_tasks b) initial).2).1
    = mkResponse 200 (TaskBody t).
Proof.
  cbv zeta.
  assert (Hinit : reachable initial) by (exists []; reflexivity).
  destruct (X2_create_then_get initial (obj3 "Buy milk" "2%" "pending")
              (TaskBase.mk (lit "Buy milk") (lit "2%") pending) Hinit
              eq_refl eq_refl) as (_ & _ & _ & _ & H).
  destruct (H eq_refl) as [Hpost Hget].
  split; [exact Hpost|]. exact (f_equal fst Hget).
Defined.

(** X3. On a reachable store, deleting the task a create has just stored
    is answered 204 and gives back the mapping as it was before the create;
    only the counter remembers the create, so the id is not issued again. *)
Theorem X3_create_then_delete (s : state) (b : json) (p : TaskCreate) :
  reachable s → TaskBase.validate b = Some p →
  forallb is_space (TaskBase.title p) = false →
  app (DELETE_task (_NEXT_ID s)) (app (POST_tasks b) s).2
  = (mkResponse 204 Empty, mkState (_TASKS s) (_NEXT_ID s + 1)).
Proof.
  intros Hwf%reachable_wf Hv Hsp.
  rewrite (app_create s b p) by done. cbv zeta. cbn [app snd].
  rewrite path_id_ok by (by destruct Hwf).
  unfold respond. rewrite delete_task_eq. simpl.
  rewrite lookup_insert_eq. unfold with_tasks. simpl.
  by rewrite delete_insert_eq, delete_id by (by apply wf_fresh).
Qed.

Lemma X3_create_then_delete_witness :
  app (DELETE_task 1)
      (app (POST_tasks (obj3 "Buy milk" "2%" "pending")) initial).2
  = (mkResponse 204 Empty, mkState ∅ 2).
Proof.
  assert (Hinit : reachable initial) by (exists []; reflexivity).
  apply (X3_create_then_delete initial (obj3 "Buy milk" "2%" "pending")
           (TaskBase.mk (lit "Buy milk") (lit "2%") pending) Hinit);
    reflexivity.
Defined.

Lemma sorted_of_sorted {A} (key : A → Z) (l : list A) :
  StronglySorted (key_le key) l → sorted key l = l.
Proof.
  induction 1 as [|x l Hs IH Hall]; simpl; [done|].
  rewrite IH. destruct Hall as [|y l' Hy _]; simpl; [done|].
  unfold key_le in Hy. by destruct (Z.leb_spec (key x) (key y)); [|lia].
Qed.

(** X4. On a reachable store, the list after a create whose body
    validates with a title that is not blank is the list before it with the
    new task appended: the new id is the largest, so the task comes last.
    The request for the list is answered with that list, or 500 when one of
    its tasks cannot be rendered. *)
Theorem X4_list_after_create (s : state) (b : json) (p : TaskCreate) :
  reachable s → TaskBase.validate b = Some p →
  forallb is_space (TaskBase.title p) = false →
  let t := Task.mk (_NEXT_ID s) (TaskBase.title p) (TaskBase.description p)
                   (TaskBase.status p) in
  let l := sorted Task.id (values (_TASKS s)) ++ [t] in
  (list_tasks (app (POST_tasks b) s).2).1 = Return l
  ∧ (app GET_tasks (app (POST_tasks b) s).2).1 = list_response l.
Proof.
  intros Hwf%reachable_wf Hv Hsp. cbv zeta.
  pose proof (app_wf (POST_tasks b) s Hwf) as Hwf'.
  rewrite app_list, list_tasks_eq.
  rewrite (app_create s b p) in * by done. cbv zeta in *.
  cbn [snd fst _TASKS] in *.
  set (t := Task.mk _ _ _ _) in *.
  set (l := sorted Task.id (values (_TASKS s))).
  assert (E : sorted Task.id (values (<[_NEXT_ID s := t]> (_TASKS s)))
              = l ++ [t]); [|by rewrite E].
  assert (Hperm : l ++ [t] ≡ₚ values (<[_NEXT_ID s := t]> (_TASKS s))).
  { unfold values. rewrite (map_to_list_insert _ _ _ (wf_fresh _ Hwf)).
    rewrite fmap_cons. simpl. unfold l. rewrite sorted_perm.
    by rewrite Permutation_app_comm. }
  rewrite <- (sorted_order_irrelevant Task.id _ _ Hperm).
  - apply sorted_of_sorted. apply StronglySorted_app_2.
    + intros x1 x2 Hx1 ->%list_elem_of_singleton.
      unfold l in Hx1. rewrite sorted_perm in Hx1.
      apply elem_of_values in Hx1 as [k Hk].
      pose proof (wf_key _ Hwf _ _ Hk). pose proof (wf_bound _ Hwf _ _ Hk).
      unfold key_le. simpl. lia.
    + apply sorted_StronglySorted.
    + repeat constructor.
  - rewrite Hperm. apply (wf_value_ids_NoDup _ Hwf').
Qed.

Lemma X4_list_after_create_witness :
  let s := (serve [POST_tasks (obj3 "a" "" "pending")] initial).2 in
  (app GET_tasks (app (POST_tasks (obj3 "b" "x" "completed")) s).2).1
  = mkResponse 200
      (TaskList [Task.mk 1 (lit "a") (lit "") pending;
                 Task.mk 2 (lit "b") (lit "x") completed]).
Proof.
  cbv zeta.
  set (rs := [POST_tasks (obj3 "a" "" "pending")]).
  assert (Hr : reachable (serve rs initial).2) by (exists rs; reflexivity).
  destruct (X4_list_after_create _ (obj3 "b" "x" "completed")
              (TaskBase.mk (lit "b") (lit "x") completed) Hr eq_refl eq_refl)
    as [_ ->].
  vm_compute. reflexivity.
Defined.

(** ** Patch: every outcome *)

Lemma patchable_of_flags p :
  sets_blank_title p = false → sets_none p = false → patchable p.
Proof.
  destruct p as [ti de st bt bd bs].
  unfold sets_blank_title, sets_none, patchable. simpl.
  intros Hb Hn.
  destruct bt, bd, bs, ti as [ti|], de as [de|], st as [st|];
    simpl in *; try discriminate;
    (split; [|split]); intros; try discriminate; eauto.
  all: exists ti; split; [done|]; by apply strip_nonempty.
Qed.

Lemma patch_task_sets_none s id t p :
  _TASKS s !! id = Some t →
  sets_blank_title p = false → sets_none p = true →
  patch_task p id s = (Raise ValidationError, s).
Proof.
  intros Ht Hb Hn. rewrite patch_task_eq, Ht. cbv zeta.
  destruct p as [ti de st bt bd bs], t as [i eti ede est].
  unfold sets_blank_title, sets_none, TaskPatch_model_dump_exclude_unset,
    Task.init, Data.update in *. simpl in *.
  destruct bt, bd, bs, ti as [ti|], de as [de|], st as [st|];
    simpl in *; try discriminate; rewrite ?Hb; done.
Qed.

Lemma patch_task_blank s id t p :
  _TASKS s !! id = Some t → sets_blank_title p = true →
  patch_task p id s = (bad_request, s).
Proof.
  intros Ht Hb. rewrite patch_task_eq, Ht. cbv zeta.
  destruct p as [ti de st bt bd bs].
  unfold sets_blank_title, TaskPatch_model_dump_exclude_unset in *.
  simpl in *. destruct bt; [|discriminate]. simpl in *.
  destruct ti as [ti|]; [|discriminate]. by rewrite Hb.
Qed.

Lemma patch_task_outcome s id t p :
  wf s → _TASKS s !! id = Some t →
  patch_task p id s =
  if sets_blank_title p then (bad_request, s)
  else if sets_none p then (Raise ValidationError, s)
  else (Return (patched p t),
        with_tasks s (<[id := patched p t]> (_TASKS s))).
Proof.
  intros Hwf Ht.
  destruct (sets_blank_title p) eqn:Hb; [by eapply patch_task_blank|].
  destruct (sets_none p) eqn:Hn; [by eapply patch_task_sets_none|].
  apply patch_task_patchable; try done. by apply patchable_of_flags.
Qed.

(** X5. The outcome of a patch on a task stored in a reachable store is
    decided by the payload alone, in this order: a set title that strips to
    nothing raises 400; otherwise a set field holding [None] (title,
    description or status) raises [ValidationError]; otherwise the patch
    returns the patched task and stores it under the id. *)
Theorem X5_patch_outcomes (s : state) (id : Z) (t : Task.t) (p : TaskPatch.t) :
  reachable s → _TASKS s !! id = Some t →
  patch_task p id s =
  if sets_blank_title p then (bad_request, s)
  else if sets_none p then (Raise ValidationError, s)
  else (Return (patched p t),
        with_tasks s (<[id := patched p t]> (_TASKS s))).
Proof. intros Hwf%reachable_wf Ht. by apply patch_task_outcome. Qed.

Lemma X5_patch_outcomes_witness :
  let s := (serve [POST_tasks (obj3 "Buy milk" "2%" "pending")] initial).2 in
  patch_task (TaskPatch.mk (Some (lit "x")) None None true false true) 1 s
  = (Raise ValidationError, s).
Proof.
  cbv zeta.
  set (rs := [POST_tasks (obj3 "Buy milk" "2%" "pending")]).
  assert (Hr : reachable (serve rs initial).2) by (exists rs; reflexivity).
  assert (Ht : _TASKS (serve rs initial).2 !! 1
               = Some (Task.mk 1 (lit "Buy milk") (lit "2%") pending))
    by (vm_compute; reflexivity).
  apply (X5_patch_outcomes _ 1 _
           (TaskPatch.mk (Some (lit "x")) None None true false true) Hr Ht).
Defined.

(** ** Status codes *)

Lemma member_encodable ms k v :
  json_encodable (JObject ms) = true → member k ms = Some v →
  json_encodable v = true.
Proof.
  induction ms as [|[k' v'] ms IH]; [discriminate|].
  intros H. cbn [json_encodable] in H.
  apply andb_true_iff in H as [Hhd Htl].
  cbn [member]. destruct (member k ms) as [w|] eqn:Hk.
  - intros [= <-]. by apply IH.
  - case_decide as E; [|discriminate]. intros [= <-]. subst k'.
    rewrite Hk in Hhd. by apply andb_true_iff in Hhd as [_ ?].
Qed.

Lemma validate_str_input m j i : validate_str m j = Invalid i → i = j.
Proof.
  destruct j as [| | | |s| |]; simpl; try (by intros [= <-]).
  destruct m as [n|]; [|discriminate].
  destruct (_ && _); [discriminate|]. by intros [= <-].
Qed.

Lemma validate_status_input j i : validate_status j = Invalid i → i = j.
Proof.
  destruct j as [| | | |s| |]; simpl; try (by intros [= <-]).
  destruct (decide _); [discriminate|].
  destruct (decide _); [discriminate|]. by intros [= <-].
Qed.

(** A quoted input is the whole body or the member the field was read
    from, so it can be rendered when the body can. *)
Lemma required_quoted {A} body ms k (v : json → validation A) :
  body = JObject ms → json_encodable body = true →
  (∀ j i, v j = Invalid i → i = j) →
  forallb json_encodable (inputs (required body v (member k ms))) = true.
Proof.
  intros -> Hb Hv. unfold required.
  destruct (member k ms) as [j|] eqn:Hk.
  - destruct (v j) as [a|i] eqn:E; [done|].
    apply Hv in E as ->. simpl. rewrite andb_true_r.
    by eapply member_encodable.
  - simpl. rewrite andb_true_r. exact Hb.
Qed.

Lemma optional_quoted {A} ms k (v : json → validation A) :
  json_encodable (JObject ms) = true →
  (∀ j i, v j = Invalid i → i = j) →
  forallb json_encodable (inputs (optional v (member k ms))) = true.
Proof.
  intros Hb Hv. unfold optional.
  destruct (member k ms) as [j|] eqn:Hk; [|done].
  assert (Hj : json_encodable j = true) by (by eapply member_encodable).
  destruct j; try done;
    match goal with |- context [v ?j] => destruct (v j) as [a|i] eqn:E end;
    try done; apply Hv in E as ->; cbn [inputs forallb]; by rewrite Hj.
Qed.

Lemma base_errors_encodable b :
  json_encodable b = true → forallb json_encodable (TaskBase.errors b) = true.
Proof.
  intros Hb. unfold TaskBase.errors, TaskBase.check.
  destruct b as [| | | | | |ms];
    try (by cbn [forallb]; rewrite Hb).
  cbv zeta.
  pose proof (required_quoted (JObject ms) ms (lit "title")
                (validate_str (Some 1)) eq_refl Hb
                (validate_str_input (Some 1))) as H1.
  pose proof (required_quoted (JObject ms) ms (lit "description")
                (validate_str None) eq_refl Hb
                (validate_str_input None)) as H2.
  pose proof (required_quoted (JObject ms) ms (lit "status")
                validate_status eq_refl Hb validate_status_input) as H3.
  destruct (required _ (validate_str (Some 1)) _),
           (required _ (validate_str None) _),
           (required _ validate_status _);
    rewrite ?forallb_app, ?H1, ?H2, ?H3; done.
Qed.

Lemma patch_errors_encodable b :
  json_encodable b = true → forallb json_encodable (TaskPatch.errors b) = true.
Proof.
  intros Hb. unfold TaskPatch.errors, TaskPatch.check.
  destruct b as [| | | | | |ms];
    try (by cbn [forallb]; rewrite Hb).
  cbv zeta.
  pose proof (optional_quoted ms (lit "title") (validate_str (Some 1)) Hb
                (validate_str_input (Some 1))) as H1.
  pose proof (optional_quoted ms (lit "description") (validate_str None) Hb
                (validate_str_input None)) as H2.
  pose proof (optional_quoted ms (lit "status") validate_status Hb
                validate_status_input) as H3.
  destruct (optional (validate_str (Some 1)) _) as [[? ?]|],
           (optional (validate_str None) _) as [[? ?]|],
           (optional validate_status _) as [[? ?]|];
    rewrite ?forallb_app, ?H1, ?H2, ?H3; done.
Qed.

Lemma base_description_encodable b p :
  TaskBase.validate b = Some p → json_encodable b = true →
  utf8_encodable (TaskBase.description p) = true.
Proof.
  intros (_ & _ & ms & -> & _ & Hd & _)%validate_base_inv Hb.
  by apply (member_encodable _ _ _ Hb) in Hd.
Qed.

Lemma patch_description_encodable b p de :
  TaskPatch.validate b = Some p → json_encodable b = true →
  TaskPatch.description p = Some de → utf8_encodable de = true.
Proof.
  intros (ms & -> & _ & Hd & _)%validate_patch_inv Hb Hde.
  rewrite Hde in Hd. apply optional_inv in Hd as (j & Hj & Hv & _).
  apply validate_str_inv in Hv as [-> _].
  by apply (member_encodable _ _ _ Hb) in Hj.
Qed.

Lemma stored_encodable s k t :
  reachable s → store_encodable s → _TASKS s !! k = Some t →
  task_encodable t = true.
Proof.
  intros Hr Hs Ht. unfold task_encodable.
  by rewrite (reachable_title s k t Hr Ht), (Hs k t Ht).
Qed.

Lemma patched_encodable s id t b p :
  reachable s → store_encodable s → _TASKS s !! id = Some t →
  TaskPatch.validate b = Some p → json_encodable b = true →
  task_encodable (patched p t) = true.
Proof.
  intros Hr Hs Ht Hv Hb.
  pose proof (stored_encodable s id t Hr Hs Ht) as He.
  apply andb_true_iff in He as [Het Hed].
  unfold task_encodable, patched. simpl. apply andb_true_iff. split.
  - destruct (TaskPatch.title_set p); [|done].
    destruct (TaskPatch.title p) as [ti|] eqn:E; [|done]. simpl.
    by destruct (validate_patch_title _ _ _ Hv E).
  - destruct (TaskPatch.description_set p); [|done].
    destruct (TaskPatch.description p) as [de|] eqn:E; [|done]. simpl.
    by eapply patch_description_encodable.
Qed.

(** The status of each route when the stored descriptions and the body of
    the request can be rendered. *)
Lemma app_clean_status s r :
  reachable s → store_encodable s → request_encodable r = true →
  status_code (app r s).1 = 500 →
  ∃ id b p, r = PATCH_task id b ∧ 1 ≤ id
            ∧ TaskPatch.validate b = Some p
            ∧ is_Some (_TASKS s !! id)
            ∧ sets_blank_title p = false ∧ sets_none p = true.
Proof.
  intros Hr Hs Hreq. pose proof (reachable_wf _ Hr) as Hwf.
  destruct r as [| |b|id|id b|id b|id]; cbn [request_encodable] in Hreq.
  - discriminate.
  - rewrite app_list. unfold list_response.
    assert (forallb task_encodable (sorted Task.id (values (_TASKS s)))
            = true) as ->; [|discriminate].
    apply forallb_forall. intros t Hin%list_elem_of_In.
    rewrite sorted_perm in Hin. apply elem_of_values in Hin as [k Hk].
    by eapply stored_encodable.
  - destruct (TaskBase.validate b) as [p|] eqn:Hv.
    + destruct (forallb is_space (TaskBase.title p)) eqn:Hsp.
      * cbn [app]. rewrite Hv. unfold respond. rewrite create_task_eq.
        cbv zeta. apply strip_empty in Hsp. rewrite Hsp. discriminate.
      * rewrite (app_create s b p) by done.
        rewrite (base_description_encodable b p) by done. discriminate.
    + cbn [app]. rewrite Hv. unfold unprocessable.
      rewrite base_errors_encodable by done. discriminate.
  - destruct (validate_path_id id) as [j|] eqn:Hj.
    + apply path_id_inv in Hj as [-> Hid].
      destruct (_TASKS s !! id) as [t|] eqn:Ht.
      * rewrite (app_get s id t) by done.
        rewrite (stored_encodable s id t) by done. discriminate.
      * cbn [app]. rewrite path_id_ok by done. unfold respond, get_task.
        rewrite _get_task_or_404_eq, Ht. discriminate.
    + cbn [app]. rewrite Hj. discriminate.
  - destruct (validate_path_id id) as [j|] eqn:Hj;
      [|cbn [app]; rewrite Hj; unfold unprocessable;
        rewrite base_errors_encodable by done; discriminate].
    apply path_id_inv in Hj as [-> Hid].
    destruct (TaskBase.validate b) as [p|] eqn:Hv;
      [|cbn [app]; rewrite path_id_ok, Hv by done; unfold unprocessable;
        rewrite base_errors_encodable by done; discriminate].
    destruct (_TASKS s !! id) as [t|] eqn:Ht;
      [|cbn [app]; rewrite path_id_ok, Hv by done; unfold respond;
        rewrite update_task_eq, Ht; discriminate].
    destruct (forallb is_space (TaskBase.title p)) eqn:Hsp.
    + cbn [app]. rewrite path_id_ok, Hv by done. unfold respond.
      rewrite update_task_eq, Ht. cbv zeta.
      apply strip_empty in Hsp. rewrite Hsp. discriminate.
    + rewrite (app_update s id t b p) by done.
      rewrite (base_description_encodable b p) by done. discriminate.
  - destruct (validate_path_id id) as [j|] eqn:Hj;
      [|cbn [app]; rewrite Hj; unfold unprocessable;
        rewrite patch_errors_encodable by done; discriminate].
    apply path_id_inv in Hj as [-> Hid].
    destruct (TaskPatch.validate b) as [p|] eqn:Hv;
      [|cbn [app]; rewrite path_id_ok, Hv by done; unfold unprocessable;
        rewrite patch_errors_encodable by done; discriminate].
    cbn [app]. rewrite path_id_ok, Hv by done. unfold respond.
    destruct (_TASKS s !! id) as [t|] eqn:Ht;
      [|rewrite patch_task_eq, Ht; discriminate].
    rewrite (patch_task_outcome s id t p Hwf Ht).
    destruct (sets_blank_title p) eqn:Hbl; [discriminate|].
    destruct (sets_none p) eqn:Hn.
    + intros _. exists id, b, p. rewrite Ht. eauto 10.
    + cbn [content_encodable].
      rewrite (patched_encodable s id t b p) by done. discriminate.
  - cbn [app]. destruct (validate_path_id id) as [j|]; [|discriminate].
    unfold respond. rewrite delete_task_eq.
    destruct (_TASKS s !! j); discriminate.
Qed.

(** X6. On a reachable store whose descriptions can all be rendered, a
    request whose body can be rendered is answered 500 exactly when it is a
    patch of a stored id whose body validates, whose title (if set) is not
    blank, and which sets some field to [null]. *)
Theorem X6_server_error_iff_patch_null (s : state) (r : request) :
  reachable s → store_encodable s → request_encodable r = true →
  status_code (app r s).1 = 500
  ↔ ∃ id b p, r = PATCH_task id b ∧ 1 ≤ id
              ∧ TaskPatch.validate b = Some p
              ∧ is_Some (_TASKS s !! id)
              ∧ sets_blank_title p = false ∧ sets_none p = true.
Proof.
  intros Hr Hs Hreq. split; [by apply app_clean_status|].
  intros (id & b & p & -> & Hid & Hv & [t Ht] & Hb & Hn). cbn [app].
  rewrite path_id_ok, Hv by done. unfold respond.
  by rewrite (patch_task_sets_none s id t p).
Qed.

Lemma X6_server_error_iff_patch_null_witness :
  let s := (serve [POST_tasks (obj3 "Buy milk" "2%" "pending")] initial).2 in
  status_code (app (PATCH_task 1 (JObject [(lit "status", JNull)])) s).1 = 500
  ∧ status_code (app (PUT_task 1 (obj3 "a" "b" "pending")) s).1 ≠ 500.
Proof.
  cbv zeta.
  set (rs := [POST_tasks (obj3 "Buy milk" "2%" "pending")]).
  assert (Hr : reachable (serve rs initial).2) by (exists rs; reflexivity).
  assert (Hs : store_encodable (serve rs initial).2).
  { intros k t. change (_TASKS (serve rs initial).2)
      with (<[1 := Task.mk 1 (lit "Buy milk") (lit "2%") pending]>
              (∅ : gmap Z Task.t)).
    rewrite lookup_insert. case_decide; [|by rewrite lookup_empty].
    by intros [= <-]. }
  split.
  - apply (X6_server_error_iff_patch_null _
             (PATCH_task 1 (JObject [(lit "status", JNull)])) Hr Hs eq_refl).
    exists 1, (JObject [(lit "status", JNull)]),
      (TaskPatch.mk None None None false false true).
    split; [reflexivity|]. split; [lia|]. split; [reflexivity|].
    split; [vm_compute; eexists; reflexivity|]. split; reflexivity.
  - intros H.
    apply (X6_server_error_iff_patch_null _
             (PUT_task 1 (obj3 "a" "b" "pending")) Hr Hs eq_refl) in H.
    destruct H as (id & b & p & H & _). discriminate H.
Defined.

(** X7. Every route answers with one of its own status codes, on every
    store: 200 for the health check; 200 or 500 for the list; 201, 400, 422
    or 500 for create; 200, 404, 422 or 500 for get; 200, 400, 404, 422 or
    500 for replace and for patch; 204, 404 or 422 for delete, which never
    answers 500. *)
Theorem X7_status_codes (s : state) (r : request) :
  status_code (app r s).1 ∈ allowed_status r.
Proof.
  destruct r as [| |b|id|id b|id b|id]; cbn [allowed_status]; app_cases;
    apply list_elem_of_In; cbn [fst status_code In];
    solve [ repeat first [ left; reflexivity | right ] ].
Qed.

(** ** Patch and replace, repeated and composed *)

Lemma with_tasks_same s : with_tasks s (_TASKS s) = s.
Proof. by destruct s. Qed.

Lemma patch_task_nothing s id t p :
  wf s → _TASKS s !! id = Some t → sets_nothing p = true →
  patch_task p id s = (Return t, s).
Proof.
  intros Hwf Ht Hp. rewrite (patch_task_outcome s id t p Hwf Ht).
  destruct p as [ti de st bt bd bs], t as [i eti ede est].
  unfold sets_nothing, sets_blank_title, sets_none, patched in *.
  simpl in *. destruct bt, bd, bs; try discriminate. simpl.
  by rewrite insert_id, with_tasks_same.
Qed.

(** X8. On a reachable store, a patch whose body sets none of the three
    fields (the empty object, or an object with other keys only) returns
    the stored task and changes nothing; the request is answered 200 with
    that task when its description can be rendered. *)
Theorem X8_empty_patch_is_identity (s : state) (id : Z) (t : Task.t)
        (b : json) (p : TaskPatch.t) :
  reachable s → _TASKS s !! id = Some t →
  TaskPatch.validate b = Some p → sets_nothing p = true →
  patch_task p id s = (Return t, s)
  ∧ (app (PATCH_task id b) s).2 = s
  ∧ (utf8_encodable (Task.description t) = true →
     app (PATCH_task id b) s = (mkResponse 200 (TaskBody t), s)).
Proof.
  intros Hr Ht Hv Hp. pose proof (reachable_wf _ Hr) as Hwf.
  pose proof (patch_task_nothing s id t p Hwf Ht Hp) as Hpatch.
  split; [exact Hpatch|].
  cbn [app]. rewrite (path_id_of_stored s id t), Hv by done.
  rewrite (respond_return _ _ _ _ _ _ Hpatch). split; [done|].
  intros Hde. cbn [content_encodable]. unfold task_encodable.
  by rewrite (reachable_title s id t Hr Ht), Hde.
Qed.

Lemma X8_empty_patch_is_identity_witness :
  let s := (serve [POST_tasks (obj3 "Buy milk" "2%" "pending")] initial).2 in
  app (PATCH_task 1 (JObject [(lit "done", JBool true)])) s
  = (mkResponse 200 (TaskBody (Task.mk 1 (lit "Buy milk") (lit "2%") pending)),
     s).
Proof.
  cbv zeta.
  set (rs := [POST_tasks (obj3 "Buy milk" "2%" "pending")]).
  assert (Hr : reachable (serve rs initial).2) by (exists rs; reflexivity).
  assert (Ht : _TASKS (serve rs initial).2 !! 1
               = Some (Task.mk 1 (lit "Buy milk") (lit "2%") pending))
    by (vm_compute; reflexivity).
  destruct (X8_empty_patch_is_identity _ 1 _
              (JObject [(lit "done", JBool true)])
              (TaskPatch.mk None None None false false false) Hr Ht
              eq_refl eq_refl) as (_ & _ & H).
  apply H. reflexivity.
Defined.

Lemma patch_init_again t u p :
  Task.init (Data.update (Task.model_dump t)
                         (TaskPatch_model_dump_exclude_unset p)) = Some u →
  Task.init (Data.update (Task.model_dump u)
                         (TaskPatch_model_dump_exclude_unset p)) = Some u.
Proof.
  destruct p as [ti de st bt bd bs], t as [i eti ede est].
  unfold Task.init, Data.update, TaskPatch_model_dump_exclude_unset. simpl.
  destruct bt, bd, bs, ti, de, st; simpl; try discriminate;
    match goal with |- context [if ?c then _ else _] => destruct c eqn:Hc end;
    try discriminate; intros [= <-]; simpl; by rewrite Hc.
Qed.

Lemma update_task_twice p id s :
  update_task p id (update_task p id s).2 = update_task p id s.
Proof.
  rewrite (update_task_eq p id s). cbv zeta.
  destruct (_TASKS s !! id) eqn:Ht; simpl;
    [|by rewrite update_task_eq, Ht].
  destruct (is_empty _) eqn:He; simpl;
    [by rewrite update_task_eq, Ht, He|].
  destruct (_ && _) eqn:Hc; simpl;
    [|by rewrite update_task_eq, Ht; cbv zeta; rewrite He, Hc].
  rewrite update_task_eq. cbv zeta. simpl.
  rewrite lookup_insert_eq, He, Hc. unfold with_tasks. simpl.
  by rewrite insert_insert_eq.
Qed.

Lemma patch_task_twice p id s :
  patch_task p id (patch_task p id s).2 = patch_task p id s.
Proof.
  rewrite (patch_task_eq p id s). cbv zeta.
  destruct (_TASKS s !! id) as [t|] eqn:Ht; cbn [snd];
    [|by rewrite patch_task_eq, Ht].
  match goal with |- context [if ?c then _ else _] => destruct c eqn:Hg end;
    cbn [snd]; [by rewrite patch_task_eq, Ht; cbv zeta; rewrite Hg|].
  destruct (Task.init _) as [u|] eqn:Hi; cbn [snd];
    [|by rewrite patch_task_eq, Ht; cbv zeta; rewrite Hg, Hi].
  rewrite patch_task_eq. cbv zeta. unfold with_tasks at 1. cbn [_TASKS].
  rewrite lookup_insert_eq, Hg, (patch_init_again _ _ _ Hi).
  unfold with_tasks. cbn [_TASKS _NEXT_ID]. by rewrite insert_insert_eq.
Qed.

(** X9. Replace and patch are idempotent on every store: the same request
    served a second time gets the same response and leaves the state the
    first one produced, whether the request succeeds or fails. *)
Theorem X9_put_patch_idempotent (s : state) (id : Z) (b : json) :
  app (PUT_task id b) (app (PUT_task id b) s).2 = app (PUT_task id b) s
  ∧ app (PATCH_task id b) (app (PATCH_task id b) s).2
    = app (PATCH_task id b) s.
Proof.
  split; cbn [app].
  - destruct (validate_path_id id) as [j|], (TaskBase.validate b) as [p|];
      try done.
    rewrite respond_state. unfold respond. by rewrite update_task_twice.
  - destruct (validate_path_id id) as [j|], (TaskPatch.validate b) as [p|];
      try done.
    rewrite respond_state. unfold respond. by rewrite patch_task_twice.
Qed.

Example patch_twice :
  let s := (serve [POST_tasks (obj3 "Buy milk" "2%" "pending")] initial).2 in
  let r := PATCH_task 1 (JObject [(lit "status", JString (lit "completed"))]) in
  (serve [r; r] s).2 = (serve [r] s).2.
Proof. vm_compute. reflexivity. Qed.

(** X10. A replace that succeeds makes an earlier replace or patch of the
    same id invisible: whatever body the earlier request had, and whether
    it succeeded or not, response and state are those of the replace served
    alone. *)
Theorem X10_replace_absorbs_earlier_write (s : state) (id : Z) (b b' : json) :
  status_code (app (PUT_task id b) s).1 = 200 →
  app (PUT_task id b) (app (PUT_task id b') s).2 = app (PUT_task id b) s
  ∧ app (PUT_task id b) (app (PATCH_task id b') s).2 = app (PUT_task id b) s.
Proof.
  cbn [app]. unfold unprocessable.
  destruct (validate_path_id id) as [j|] eqn:Hj;
    [|destruct (forallb _ _); discriminate].
  destruct (TaskBase.validate b) as [p|];
    [|destruct (forallb _ _); discriminate].
  assert (Hgen : ∀ s1, (s1 = s ∨ ∃ u, s1 = with_tasks s (<[j := u]> (_TASKS s))) →
            status_code (respond 200 TaskBody (update_task p j) s).1 = 200 →
            respond 200 TaskBody (update_task p j) s1
            = respond 200 TaskBody (update_task p j) s).
  { intros s1 Hs1. unfold respond. rewrite !update_task_eq. cbv zeta.
    destruct (_TASKS s !! j) eqn:Ht; [|discriminate].
    destruct (is_empty _) eqn:He; [discriminate|].
    destruct ((1 <=? j) && _) eqn:Hc; [|discriminate].
    intros _. destruct Hs1 as [->|[u ->]].
    - by rewrite Ht.
    - simpl. rewrite lookup_insert_eq. unfold with_tasks. simpl.
      by rewrite insert_insert_eq. }
  intros H200. split; apply Hgen; try done.
  - destruct (TaskBase.validate b') as [p'|]; [|by left].
    rewrite respond_state, update_task_eq. cbv zeta.
    destruct (_TASKS s !! j); [|by left].
    destruct (is_empty _); [by left|].
    destruct (_ && _); [right; eauto|by left].
  - destruct (TaskPatch.validate b') as [p'|]; [|by left].
    rewrite respond_state, patch_task_eq. cbv zeta.
    destruct (_TASKS s !! j); [|by left].
    match goal with |- context [if ?c then _ else _] => destruct c end;
      [by left|].
    destruct (Task.init _); [right; eauto|by left].
Qed.

Lemma X10_replace_absorbs_earlier_write_witness :
  let s := (serve [POST_tasks (obj3 "Buy milk" "2%" "pending")] initial).2 in
  let put := PUT_task 1 (obj3 "Buy bread" "" "completed") in
  app put (app (PATCH_task 1 (JObject [(lit "title", JString (lit "x"))])) s).2
  = app put s.
Proof.
  cbv zeta.
  set (rs := [POST_tasks (obj3 "Buy milk" "2%" "pending")]).
  apply (X10_replace_absorbs_earlier_write (serve rs initial).2 1
           (obj3 "Buy bread" "" "completed")
           (JObject [(lit "title", JString (lit "x"))])).
  vm_compute. reflexivity.
Defined.

(** ** What a request can touch *)

Lemma app_reads r s : touched r s = None → (app r s).2 = s.
Proof.
  destruct r as [| |b|id|id b|id b|id]; cbn [touched]; try discriminate;
    intros _; app_cases; reflexivity.
Qed.

Lemma app_frame r s k :
  touched r s ≠ Some k → _TASKS (app r s).2 !! k = _TASKS s !! k.
Proof.
  destruct r as [| |b|id|id b|id b|id]; cbn [touched]; intros Hk;
    app_cases; cbn [snd _TASKS]; unfold with_tasks; cbn [_TASKS];
    try reflexivity.
  all: repeat match goal with
              | H : validate_path_id _ = Some _ |- _ =>
                  apply path_id_inv in H as [-> _]
              end.
  all: first [ apply lookup_insert_ne | apply lookup_delete_ne ]; congruence.
Qed.

Lemma app_counter r s :
  _NEXT_ID (app r s).2 = _NEXT_ID s
  ∨ ∃ b, r = POST_tasks b ∧ issued_id r s = Some (_NEXT_ID s).
Proof.
  destruct (app_issued r s) as [[_ E]|[Hi _]]; [by left|right].
  destruct r; try discriminate. eauto.
Qed.

(** X11. A request writes at most one entry of the mapping: a create the
    entry of the counter's value, a replace, patch or delete the entry of
    its path id; every other entry is as before. The three reading routes
    leave the whole state as it is, and the counter moves only on a create
    whose handler stores a task. *)
Theorem X11_request_frame (s : state) (r : request) :
  (touched r s = None → (app r s).2 = s)
  ∧ (∀ k, touched r s ≠ Some k → _TASKS (app r s).2 !! k = _TASKS s !! k)
  ∧ (_NEXT_ID (app r s).2 = _NEXT_ID s
     ∨ ∃ b, r = POST_tasks b ∧ issued_id r s = Some (_NEXT_ID s)).
Proof.
  split; [apply app_reads|]. split; [apply app_frame|apply app_counter].
Qed.

Lemma X11_request_frame_witness :
  let s := (serve [POST_tasks (obj3 "a" "" "pending");
                   POST_tasks (obj3 "b" "" "pending")] initial).2 in
  _TASKS (app (DELETE_task 1) s).2 !! 2 = _TASKS s !! 2
  ∧ (app (GET_task 1) s).2 = s.
Proof.
  cbv zeta.
  set (s := (serve [POST_tasks (obj3 "a" "" "pending");
                    POST_tasks (obj3 "b" "" "pending")] initial).2).
  split.
  - destruct (X11_request_frame s (DELETE_task 1)) as (_ & H & _).
    apply (H 2). discriminate.
  - destruct (X11_request_frame s (GET_task 1)) as (H & _).
    apply H. reflexivity.
Defined.

Lemma status_422_iff_rejected s r :
  status_code (app r s).1 = 422
  ↔ rejected r = true ∧ forallb json_encodable (quoted r) = true.
Proof.
  destruct r as [| |b|id|id b|id b|id]; cbn [rejected quoted]; app_cases;
    cbn [fst status_code holds_None orb forallb];
    (split; [intros ?|intros [? ?]]); try discriminate; try done.
Qed.

Lemma status_rejected_500 s r :
  rejected r = true → forallb json_encodable (quoted r) = false →
  status_code (app r s).1 = 500.
Proof.
  destruct r as [| |b|id|id b|id b|id]; cbn [rejected quoted]; app_cases;
    cbn [fst status_code holds_None orb forallb];
    intros ? ?; try discriminate; try done.
Qed.

(** X12. Whether a request is answered 422 depends on the request alone,
    not on the store: it is answered 422 exactly when its path id is below
    1 or its body is not accepted by the route's model, and the inputs the
    errors quote can be rendered; when they cannot, the answer is 500. No
    handler answers 422 by itself. *)
Theorem X12_unprocessable_iff_rejected (s : state) (r : request) :
  (status_code (app r s).1 = 422
   ↔ rejected r = true ∧ forallb json_encodable (quoted r) = true)
  ∧ (rejected r = true → forallb json_encodable (quoted r) = false →
     status_code (app r s).1 = 500).
Proof. split; [apply status_422_iff_rejected|apply status_rejected_500]. Qed.

Lemma X12_unprocessable_iff_rejected_witness :
  status_code (app (GET_task 0) initial).1 = 422
  ∧ status_code
      (app (POST_tasks (task_json [55296%N] (lit "x") (lit "pending")))
           initial).1 = 500.
Proof.
  split.
  - apply (X12_unprocessable_iff_rejected initial (GET_task 0)).
    split; reflexivity.
  - apply (X12_unprocessable_iff_rejected initial
             (POST_tasks (task_json [55296%N] (lit "x") (lit "pending"))));
      reflexivity.
Defined.

Lemma check_task_json_any ti de st :
  TaskBase.check (task_json ti de st) =
  match (if utf8_encodable ti && (1 <=? len ti)
         then Valid ti else Invalid (JString ti)),
        validate_status (JString st) with
  | Valid a, Valid c => inl (TaskBase.mk a de c)
  | vt, vs => inr (inputs vt ++ inputs vs)
  end.
Proof.
  unfold TaskBase.check, task_json. cbv zeta.
  replace (member (lit "title") _) with (Some (JString ti)) by reflexivity.
  replace (member (lit "description") _) with (Some (JString de))
    by reflexivity.
  replace (member (lit "status") _) with (Some (JString st)) by reflexivity.
  unfold required. cbn [validate_str].
  destruct (utf8_encodable ti && (1 <=? len ti));
    by destruct (validate_status (JString st)).
Qed.

Lemma status_string_valid st c :
  validate_status (JString st) = Valid c →
  st = lit "pending" ∨ st = lit "completed".
Proof.
  intros H%validate_status_inv. injection H as ->. destruct c; auto.
Qed.

Lemma status_string_invalid st i :
  validate_status (JString st) = Invalid i →
  i = JString st ∧ st ≠ lit "pending" ∧ st ≠ lit "completed".
Proof.
  unfold validate_status.
  change (TaskStatus_value pending) with (lit "pending").
  change (TaskStatus_value completed) with (lit "completed").
  destruct (decide (st = lit "pending")); [discriminate|].
  destruct (decide (st = lit "completed")); [discriminate|].
  by intros [= <-].
Qed.

(** X13. A create whose body has the three fields as strings, title and
    status free of surrogates, is answered 422 exactly when the title is
    the empty string or the status is neither ["pending"] nor
    ["completed"], spelled exactly so; the description is never a reason,
    and a whitespace-only title is not one either. *)
Theorem X13_create_422_iff (s : state) (ti de st : str) :
  utf8_encodable ti = true → utf8_encodable st = true →
  status_code (app (POST_tasks (task_json ti de st)) s).1 = 422
  ↔ ti = [] ∨ (st ≠ lit "pending" ∧ st ≠ lit "completed").
Proof.
  intros Hti Hst. rewrite status_422_iff_rejected. cbn [rejected quoted].
  unfold TaskBase.validate, TaskBase.errors.
  rewrite check_task_json_any, Hti. cbn [andb].
  destruct (Z.leb_spec 1 (len ti)) as [Hlen|Hlen].
  - assert (ti ≠ []) by (intros ->; unfold len in Hlen; simpl in Hlen; lia).
    destruct (validate_status (JString st)) as [c|i] eqn:E.
    + apply status_string_valid in E. cbn [holds_None]. split.
      * by intros [? _].
      * intros [?|[? ?]]; [done|]. by destruct E.
    + apply status_string_invalid in E as (-> & ? & ?).
      cbn [holds_None inputs Datatypes.app forallb json_encodable]. rewrite Hst.
      split; auto.
  - assert (ti = []) as ->.
    { destruct ti; [done|]. unfold len in Hlen. simpl in Hlen. lia. }
    destruct (validate_status (JString st)) as [c|i] eqn:E.
    + cbn [holds_None inputs Datatypes.app forallb json_encodable utf8_encodable].
      split; auto.
    + apply status_string_invalid in E as (-> & ? & ?).
      cbn [holds_None inputs Datatypes.app forallb json_encodable utf8_encodable].
      rewrite Hst. split; auto.
Qed.

Lemma X13_create_422_iff_witness :
  status_code (app (POST_tasks (obj3 "a" "b" "Pending")) initial).1 = 422
  ∧ status_code (app (POST_tasks (obj3 " " "b" "pending")) initial).1 ≠ 422.
Proof.
  split.
  - apply (X13_create_422_iff initial (lit "a") (lit "b") (lit "Pending"));
      [reflexivity|reflexivity|].
    right. split; discriminate.
  - intros H.
    apply (X13_create_422_iff initial (lit " ") (lit "b") (lit "pending")) in H;
      [|reflexivity|reflexivity].
    destruct H as [H|[H _]]; [discriminate H|by apply H].
Defined.

(** ** The stored ids along a run *)

(** X14. Served from the empty store, the ids stored at the end (and so
    the ids the list handler returns) are exactly the ids issued along the
    way that no delete answered 204 has removed. *)
Theorem X14_listed_iff_created_not_deleted (rs : list request) (i : Z) :
  let resps := (serve rs initial).1 in
  let s := (serve rs initial).2 in
  (is_Some (_TASKS s !! i)
   ↔ i ∈ ids_issued rs initial ∧ i ∉ ids_deleted rs resps)
  ∧ (i ∈ Task.id <$> sorted Task.id (values (_TASKS s))
     ↔ i ∈ ids_issued rs initial ∧ i ∉ ids_deleted rs resps).
Proof.
  cbv zeta.
  assert (H : is_Some (_TASKS (serve rs initial).2 !! i)
              ↔ i ∈ ids_issued rs initial
                ∧ i ∉ ids_deleted rs (serve rs initial).1).
  { rewrite (serve_keys_all rs initial i wf_initial). simpl.
    rewrite lookup_empty. split; [intros [[[? [=]]|?] ?]; done|].
    intros [? ?]. split; [by right|done]. }
  split; [done|].
  rewrite wf_listed_ids by apply serve_wf, wf_initial. done.
Qed.

Example listed_ids_after_deletes :
  let rs := [POST_tasks (obj3 "a" "" "pending"); POST_tasks (obj3 "b" "" "pending");
             DELETE_task 1; DELETE_task 1; POST_tasks (obj3 "c" "" "pending")] in
  ids_issued rs initial = [1; 2; 3]
  ∧ ids_deleted rs (serve rs initial).1 = [1]
  ∧ Task.id <$> sorted Task.id (values (_TASKS (serve rs initial).2)) = [2; 3].
Proof. vm_compute. repeat split. Qed.

(** A create answered 500 has stored its task all the same: the id is
    issued, no 201 announces it, and the list cannot be rendered. *)
Example create_with_lone_surrogate :
  let rs := [POST_tasks (task_json (lit "a") [55296%N] (lit "pending"));
             POST_tasks (obj3 "b" "" "pending"); GET_tasks] in
  status_code <$> (serve rs initial).1 = [500; 201; 500]
  ∧ ids_issued rs initial = [1; 2]
  ∧ ids_created (serve rs initial).1 = [2]
  ∧ _NEXT_ID (serve rs initial).2 = 3.
Proof. vm_compute. repeat split. Qed.

(** ** Delete, seen through the list *)

Lemma StronglySorted_filter {A} (R : relation A) (P : A → Prop)
      `{∀ x, Decision (P x)} (l : list A) :
  StronglySorted R l → StronglySorted R (filter P l).
Proof.
  induction 1 as [|x l Hs IH Hall]; [constructor|].
  rewrite filter_cons. destruct (decide (P x)); [|done].
  constructor; [done|].
  rewrite Forall_forall in Hall |- *.
  intros y [_ Hy]%list_elem_of_filter. by apply Hall.
Qed.

Lemma app_delete_state s id :
  wf s → (app (DELETE_task id) s).2 = with_tasks s (delete id (_TASKS s)).
Proof.
  intros Hwf. cbn [app].
  assert (Habs : _TASKS s !! id = None →
                 s = with_tasks s (delete id (_TASKS s))).
  { intros E. by rewrite delete_id, with_tasks_same. }
  destruct (validate_path_id id) as [j|] eqn:Hj.
  - apply path_id_inv in Hj as [-> _]. rewrite respond_state, delete_task_eq.
    destruct (_TASKS s !! id) eqn:E; [done|]. by apply Habs.
  - simpl. apply Habs.
    destruct (_TASKS s !! id) as [t|] eqn:E; [|done].
    apply (wf_bound _ Hwf) in E. unfold validate_path_id in Hj.
    destruct (Z.leb_spec 1 id); [discriminate|lia].
Qed.

Lemma values_delete s id :
  wf s →
  sorted Task.id (values (delete id (_TASKS s)))
  = filter (λ t, Task.id t ≠ id) (sorted Task.id (values (_TASKS s))).
Proof.
  intros Hwf.
  pose proof (wf_value_ids_NoDup s Hwf) as Hnd.
  assert (Hsub : ∀ t, t ∈ values (delete id (_TASKS s))
                      ↔ Task.id t ≠ id ∧ t ∈ values (_TASKS s)).
  { intros t. rewrite !elem_of_values. split.
    - intros [k [Hk Ht]%lookup_delete_Some].
      rewrite (wf_key _ Hwf _ _ Ht). eauto.
    - intros [Hid [k Ht]]. exists k. apply lookup_delete_Some.
      split; [|done]. intros ->. apply Hid. by apply (wf_key _ Hwf). }
  apply (StronglySorted_unique_strong (key_le Task.id)).
  - intros x1 x2 Hx1 Hx2 H12 H21. unfold key_le in *.
    rewrite sorted_perm in Hx1. apply Hsub in Hx1 as [_ Hx1].
    apply list_elem_of_filter in Hx2 as [_ Hx2]. rewrite sorted_perm in Hx2.
    apply (key_inj_on Task.id (values (_TASKS s))); [done..|lia].
  - apply sorted_StronglySorted.
  - apply StronglySorted_filter, sorted_StronglySorted.
  - apply NoDup_Permutation.
    + rewrite sorted_perm. unfold values. apply NoDup_fmap_2_strong.
      * intros [k1 t1] [k2 t2] H1%elem_of_map_to_list H2%elem_of_map_to_list.
        simpl. intros <-.
        apply lookup_delete_Some in H1 as [_ H1].
        apply lookup_delete_Some in H2 as [_ H2].
        by rewrite <- (wf_key _ Hwf _ _ H1), <- (wf_key _ Hwf _ _ H2).
      * apply NoDup_map_to_list.
    + apply NoDup_filter. rewrite sorted_perm.
      by apply (NoDup_fmap_1 Task.id).
    + intros t. rewrite list_elem_of_filter, !sorted_perm. apply Hsub.
Qed.

(** X15. On a reachable store, the list after a delete request is the list
    before it without the task of that id, the other tasks keeping their
    order; when the delete is answered 404 or 422 no listed task has that
    id and the list is the same. The request for the list is answered with
    that list, or 500 when one of its tasks cannot be rendered. *)
Theorem X15_list_after_delete (s : state) (id : Z) :
  reachable s →
  let l := filter (λ t, Task.id t ≠ id)
                  (sorted Task.id (values (_TASKS s))) in
  (list_tasks (app (DELETE_task id) s).2).1 = Return l
  ∧ (app GET_tasks (app (DELETE_task id) s).2).1 = list_response l.
Proof.
  intros Hwf%reachable_wf. cbv zeta.
  rewrite app_list, list_tasks_eq, app_delete_state by done.
  cbn [fst snd with_tasks _TASKS].
  by rewrite values_delete.
Qed.

Lemma X15_list_after_delete_witness :
  let s := (serve [POST_tasks (obj3 "a" "" "pending");
                   POST_tasks (obj3 "b" "" "pending");
                   POST_tasks (obj3 "c" "" "pending")] initial).2 in
  (app GET_tasks (app (DELETE_task 2) s).2).1
  = mkResponse 200 (TaskList [Task.mk 1 (lit "a") (lit "") pending;
                              Task.mk 3 (lit "c") (lit "") pending]).
Proof.
  cbv zeta.
  set (rs := [POST_tasks (obj3 "a" "" "pending");
              POST_tasks (obj3 "b" "" "pending");
              POST_tasks (obj3 "c" "" "pending")]).
  assert (Hr : reachable (serve rs initial).2) by (exists rs; reflexivity).
  destruct (X15_list_after_delete _ 2 Hr) as [_ ->].
  vm_compute. reflexivity.
Defined.
